(** * youtube-file-sync: the downloader lambda

    A shallow embedding of [lambda/youtube-downloader.ts]: the cookie cache
    ([ensureCookieFileIfConfigured]), one download attempt ([attemptDownload]),
    the strategy loop ([downloadToS3]) and the SQS batch [handler].

    The lambda talks to the outside all the time (clock, local disk, yt-dlp,
    S3, DynamoDB, CloudWatch).  The embedding threads a [World] through the
    code and takes the answers of the outside from an [Env]: every call that
    leaves the process consumes one tick, and the environment's answer to the
    call is a function of that tick (and of the call's arguments). *)

From Stdlib Require Import ZArith QArith Lia Ascii.
From stdpp Require Import base option list gmap strings pretty.

#[local] Set Warnings "-register-all".

Open Scope string_scope.
Open Scope Z_scope.

(** ** JavaScript values *)

(** A JS string is modelled by a Rocq string, one [ascii] per code unit. *)

Inductive JSValue : Type :=
| JUndefined
| JNull
| JBool (b : bool)
| JNum (n : Q)
| JStr (s : string)
| JArr (items : list JSValue)
| JObj (fields : list (string * JSValue)).

(** [!v] is [negb (truthy v)]. *)
Definition truthy (v : JSValue) : bool :=
  match v with
  | JUndefined | JNull => false
  | JBool b => b
  | JNum n => negb (Qeq_bool n 0)
  | JStr s => negb (String.eqb s "")
  | JArr _ | JObj _ => true
  end.

(** [v.k] for a data property name [k] that no prototype defines (here
    [videoId] and [title]): an own field of an object, [undefined] on every
    other value.  [JSON.parse] keeps the last of duplicate keys. *)
Definition get_prop (v : JSValue) (k : string) : JSValue :=
  match v with
  | JObj fields =>
      fold_left (fun acc kv => if String.eqb (fst kv) k then snd kv else acc)
                fields JUndefined
  | _ => JUndefined
  end.

(** [a || b] *)
Definition js_or (a b : JSValue) : JSValue := if truthy a then a else b.

Record JSError := mkError { err_name : string; err_message : string }.

Definition Error (msg : string) : JSError := mkError "Error" msg.
Definition TypeError (msg : string) : JSError := mkError "TypeError" msg.
Definition SyntaxError (msg : string) : JSError := mkError "SyntaxError" msg.

(** ** The outside world *)

Record File := mkFile { f_size : Z; f_mtime : Z; f_mode : Z }.

(** A row of the state table (partition key [videoId], a string). *)
Record Item := mkItem {
  it_videoId : string;
  it_title : string;
  it_s3Key : string;
  it_s3Bucket : string;
  it_downloadedAt : Z
}.

Inductive Level := LvLog | LvWarn | LvError.

Inductive Event : Type :=
| EvConsole (lv : Level) (text : string)
| EvLog (event : string) (timestamp : Z) (data : list (string * JSValue))
| EvMetric (name : string) (value : Q) (unit : string)
| EvS3Get (bucket key : string)
| EvSpawn (command : string) (args : list string)
| EvUpload (bucket key body : string) (done : bool)
| EvAttemptSuccess (s3Key playerClient tempFile : string) (size : Z)
| EvAttemptFailed (videoUrl playerClient s3Key message : string)
| EvDdbGet (table : string) (key : JSValue)
| EvDdbPut (table : string) (item : Item).

Record World := mkWorld {
  w_tick : nat;
  w_fs : gmap string File;
  w_bucket : gmap string Z;
  w_table : gmap string Item;
  w_trace : list Event
}.

Definition set_tick (n : nat) (w : World) : World :=
  mkWorld n (w_fs w) (w_bucket w) (w_table w) (w_trace w).
Definition set_fs (fs : gmap string File) (w : World) : World :=
  mkWorld (w_tick w) fs (w_bucket w) (w_table w) (w_trace w).
Definition set_bucket (b : gmap string Z) (w : World) : World :=
  mkWorld (w_tick w) (w_fs w) b (w_table w) (w_trace w).
Definition set_table (t : gmap string Item) (w : World) : World :=
  mkWorld (w_tick w) (w_fs w) (w_bucket w) t (w_trace w).
Definition set_trace (tr : list Event) (w : World) : World :=
  mkWorld (w_tick w) (w_fs w) (w_bucket w) (w_table w) tr.

(** How a child process ends: the ['error'] event, or ['close'] with an exit
    code ([None] is JS [null], the child was killed by a signal). *)
Inductive SpawnEnd :=
| SpawnError (e : JSError)
| Closed (code : option Z).

Record SpawnOutcome := mkSpawn {
  sp_stderr : list string;      (* the lines written to stderr *)
  sp_output : option File;      (* what the child left at its [-o] path *)
  sp_end : SpawnEnd
}.

Inductive S3GetOutcome :=
| S3GetFails (e : JSError)
| S3Body (size mtime : Z)
| S3BodyBroken (partial : option Z) (mtime : Z) (e : JSError).

Record Env := mkEnv {
  env_now : nat -> Z;                               (* wall clock, ms *)
  env_s3get : nat -> S3GetOutcome;                  (* GetObject *)
  env_spawn : nat -> list string -> SpawnOutcome;   (* yt-dlp *)
  env_upload : nat -> string -> option JSError;     (* Upload.done *)
  env_ddb_fault : nat -> option JSError;            (* DynamoDB unavailable *)
  env_ddb_others : nat -> gmap string Item;         (* rows other workers wrote *)
  env_metric : nat -> option JSError                (* PutMetricData *)
}.

(** Process-wide configuration, read once from the environment variables.
    [COOKIE_MAX_AGE_HOURS] is the result of [parseInt]: [None] is [NaN]. *)
Record Config := mkConfig {
  BUCKET_NAME : string;
  TABLE_NAME : string;
  COOKIE_S3_KEY : string;
  COOKIE_MAX_AGE_HOURS : option Z
}.

(** ** Completions: a value, or a thrown error *)

Inductive Completion (A : Type) : Type :=
| Normal (a : A)
| Thrown (e : JSError).
Arguments Normal {A} a.
Arguments Thrown {A} e.

Definition M (A : Type) : Type := World -> Completion A * World.

Definition ret {A} (a : A) : M A := fun w => (Normal a, w).

Definition throw {A} (e : JSError) : M A := fun w => (Thrown e, w).

Definition bind {A B} (m : M A) (k : A -> M B) : M B :=
  fun w =>
    match m w with
    | (Normal a, w') => k a w'
    | (Thrown e, w') => (Thrown e, w')
    end.

Notation "'let*' x ':=' m 'in' k" := (bind m (fun x => k))
  (at level 10, x name, m at level 100, k at level 200).
Notation "m ';;' k" := (bind m (fun _ => k))
  (at level 100, k at level 200, right associativity).

(** [try { m } catch (err) { h err }] *)
Definition try_catch {A} (m : M A) (h : JSError -> M A) : M A :=
  fun w =>
    match m w with
    | (Normal a, w') => (Normal a, w')
    | (Thrown e, w') => h e w'
    end.

(** [try { m } finally { f }]: [f] always runs; what it throws wins. *)
Definition try_finally {A} (m : M A) (f : M unit) : M A :=
  fun w =>
    let (r, w') := m w in
    match f w' with
    | (Normal _, w'') => (r, w'')
    | (Thrown e, w'') => (Thrown e, w'')
    end.

Definition emit (e : Event) : M unit :=
  fun w => (Normal tt, set_trace (w_trace w ++ [e])%list w).

(** One interaction with the outside: read the answer at the current tick. *)
Definition ask {A} (f : nat -> A) : M A :=
  fun w => (Normal (f (w_tick w)), set_tick (S (w_tick w)) w).

(** ** The local file system ([fs]) *)

Definition ENOENT (path : string) : JSError :=
  mkError "Error" ("ENOENT: no such file or directory, " +:+ path).

Definition fs_existsSync (path : string) : M bool :=
  fun w => (Normal (bool_decide (is_Some (w_fs w !! path))), w).

Definition fs_statSync (path : string) : M File :=
  fun w =>
    match w_fs w !! path with
    | Some f => (Normal f, w)
    | None => (Thrown (ENOENT path), w)
    end.

Definition fs_unlinkSync (path : string) : M unit :=
  fun w =>
    match w_fs w !! path with
    | Some _ => (Normal tt, set_fs (delete path (w_fs w)) w)
    | None => (Thrown (ENOENT path), w)
    end.

Definition fs_renameSync (old new : string) : M unit :=
  fun w =>
    match w_fs w !! old with
    | Some f => (Normal tt, set_fs (<[new := f]> (delete old (w_fs w))) w)
    | None => (Thrown (ENOENT old), w)
    end.

Definition fs_chmodSync (path : string) (mode : Z) : M unit :=
  fun w =>
    match w_fs w !! path with
    | Some f =>
        (Normal tt, set_fs (<[path := mkFile (f_size f) (f_mtime f) mode]> (w_fs w)) w)
    | None => (Thrown (ENOENT path), w)
    end.

(** A writer outside the lambda's control (a stream, the child process)
    leaves [f] at [path]. *)
Definition fs_put (path : string) (f : File) : M unit :=
  fun w => (Normal tt, set_fs (<[path := f]> (w_fs w)) w).

Fixpoint forEach {A} (f : A -> M unit) (l : list A) : M unit :=
  match l with
  | [] => ret tt
  | x :: rest => f x ;; forEach f rest
  end.

(** ** The lambda *)

Definition COOKIE_LOCAL_PATH : string := "/tmp/cookies.txt".
Definition COOKIE_TMP_PATH : string := "/tmp/cookies.txt.tmp".

Definition clientStrategies : list string :=
  ["ios"; "ios,web"; "web"; "android_creator"].

(** [(Date.now() - stat.mtimeMs) / (1000 * 60 * 60)], as an exact rational. *)
Definition ageHours (now mtimeMs : Z) : Q := Qmake (now - mtimeMs) 3600000.

Definition Qltb (x y : Q) : bool :=
  match Qcompare x y with Lt => true | _ => false end.

(** [`/tmp/video_${Date.now()}.mp4`] *)
Definition tempFileAt (now : Z) : string :=
  "/tmp/video_" +:+ pretty now +:+ ".mp4".

Definition yt_dlp_args (playerClient tempFile : string) : list string :=
  [ "-f"; "worst[ext=mp4]/worstvideo+worstaudio/worst";
    "--no-progress";
    "--cache-dir"; "/tmp/yt-dlp-cache";
    "--paths"; "temp:/tmp";
    "--no-playlist";
    "--force-ipv4";
    "--extractor-args"; "youtube:player_client=" +:+ playerClient;
    "--no-abort-on-error";
    "--merge-output-format"; "mp4";
    "-o"; tempFile ].

Definition show_code (code : option Z) : string :=
  match code with Some c => pretty c | None => "null" end.

(** What the promise around the child rejects with, if it does: the
    ['error'] event's error, or a non-zero exit code on ['close']. *)
Definition child_rejection (e : SpawnEnd) : option JSError :=
  match e with
  | SpawnError err => Some err
  | Closed (Some 0) => None
  | Closed code => Some (Error ("yt-dlp exited with code " +:+ show_code code))
  end.

(** The character class [[a-z0-9 -]] under the [i] flag. *)
Definition safe_char (c : ascii) : bool :=
  let n := N_of_ascii c in
  ((97 <=? n) && (n <=? 122) || (65 <=? n) && (n <=? 90) ||
   (48 <=? n) && (n <=? 57) || (n =? 32) || (n =? 45))%N.

(** [s.replace(/[^a-z0-9 -]/gi, '_')] *)
Fixpoint replace_unsafe (s : string) : string :=
  match s with
  | EmptyString => EmptyString
  | String c rest =>
      String (if safe_char c then c else "_"%char) (replace_unsafe rest)
  end.

(** [title.replace(/[^a-z0-9 -]/gi, '_').substring(0, 100)] on a string. *)
Definition sanitize (title : string) : string :=
  String.substring 0 100 (replace_unsafe title).

(** The same expression on whatever value [title] holds at run time. *)
Definition safeTitleOf (title : JSValue) : M string :=
  match title with
  | JStr s => ret (sanitize s)
  | JUndefined =>
      throw (TypeError "Cannot read properties of undefined (reading 'replace')")
  | JNull =>
      throw (TypeError "Cannot read properties of null (reading 'replace')")
  | _ => throw (TypeError "title.replace is not a function")
  end.

(** The text of a string value inside a template literal.  Only strings get
    this far: the table's key is a string, and [GetCommand] has thrown for
    every other [videoId] (lemma [GetCommand_string] below). *)
Definition str_of (v : JSValue) : string :=
  match v with JStr s => s | _ => "" end.

(** [`videos/${safeTitle}_${videoId}.mp4`] *)
Definition s3KeyOf (safeTitle videoId : string) : string :=
  "videos/" +:+ safeTitle +:+ "_" +:+ videoId +:+ ".mp4".

(** [`https://www.youtube.com/watch?v=${videoId}`] *)
Definition watchUrl (videoId : string) : string :=
  "https://www.youtube.com/watch?v=" +:+ videoId.

Record SQSRecord := mkRecord {
  messageId : string;
  body : string;
  (** what [JSON.parse(body)] returns; [None] when it throws *)
  body_json : option JSValue
}.

(** How one turn of a [for] loop ends: falls through to the next turn
    ([continue]), or leaves the enclosing function ([return]). *)
Inductive Flow := Continue | Return.

Section Downloader.

Variable cfg : Config.
Variable env : Env.

Definition Date_now : M Z := ask (env_now env).

Definition console (lv : Level) (text : string) : M unit :=
  emit (EvConsole lv text).

Definition recordMetric (name : string) (value : Q) (unit_ : string) : M unit :=
  let* fault := ask (env_metric env) in
  match fault with
  | None => emit (EvMetric name value unit_)
  | Some e => throw e
  end.

Definition log (event : string) (data : list (string * JSValue)) : M unit :=
  let* timestamp := Date_now in
  emit (EvLog event timestamp data).

(** [s3Client.send(new GetObjectCommand(..))] *)
Definition s3_GetObject (bucket key : string) : M S3GetOutcome :=
  emit (EvS3Get bucket key) ;;
  let* answer := ask (env_s3get env) in
  match answer with
  | S3GetFails e => throw e
  | _ => ret answer
  end.

(** [pipeline(resp.Body, fs.createWriteStream(path, { mode }))] *)
Definition pipeline_to_file (resp : S3GetOutcome) (path : string) (mode : Z) : M unit :=
  match resp with
  | S3GetFails e => throw e
  | S3Body size mtime => fs_put path (mkFile size mtime mode)
  | S3BodyBroken partial mtime e =>
      match partial with
      | Some size => fs_put path (mkFile size mtime mode)
      | None => ret tt
      end ;;
      throw e
  end.

Definition cookie_is_fresh (age : Q) : bool :=
  match COOKIE_MAX_AGE_HOURS cfg with
  | Some maxAge => Qltb age (inject_Z maxAge)
  | None => false
  end.

Definition ensureCookieFileIfConfigured : M unit :=
  if String.eqb (COOKIE_S3_KEY cfg) "" || String.eqb (BUCKET_NAME cfg) "" then
    console LvLog "Cookie configuration not set, skipping cookie download."
  else
    try_catch
      (let* flow :=
         (let* cached := fs_existsSync COOKIE_LOCAL_PATH in
          if cached then
            let* stat := fs_statSync COOKIE_LOCAL_PATH in
            let* now := Date_now in
            if cookie_is_fresh (ageHours now (f_mtime stat)) then
              console LvLog "Using existing fresh cookie file" ;;
              ret Return
            else ret Continue
          else ret Continue) in
       match flow with
       | Return => ret tt
       | Continue =>
           let* resp := s3_GetObject (BUCKET_NAME cfg) (COOKIE_S3_KEY cfg) in
           pipeline_to_file resp COOKIE_TMP_PATH 384 ;;
           fs_renameSync COOKIE_TMP_PATH COOKIE_LOCAL_PATH ;;
           fs_chmodSync COOKIE_LOCAL_PATH 384
       end)
      (fun err =>
         console LvWarn ("Failed to download cookies: " +:+ err_message err) ;;
         let* partial := fs_existsSync COOKIE_TMP_PATH in
         if partial then fs_unlinkSync COOKIE_TMP_PATH else ret tt).

(** The promise around [spawn('yt-dlp', args, ..)]: the child writes its
    output at the [-o] path, its stderr lines are logged, and the promise
    resolves on exit code 0 only. *)
Definition spawn_yt_dlp (args : list string) (output : string) : M unit :=
  emit (EvSpawn "yt-dlp" args) ;;
  let* child := ask (fun k => env_spawn env k args) in
  match sp_output child with
  | Some f => fs_put output f
  | None => ret tt
  end ;;
  forEach (fun line => console LvLog ("yt-dlp: " +:+ line)) (sp_stderr child) ;;
  match child_rejection (sp_end child) with
  | Some err => throw err
  | None => ret tt
  end.

(** [new Upload({ .. Key: s3Key, Body: fs.createReadStream(tempFile) }).done()] *)
Definition upload_done (s3Key tempFile : string) (size : Z) : M unit :=
  let* fault := ask (fun k => env_upload env k s3Key) in
  match fault with
  | None =>
      (fun w => (Normal tt, set_bucket (<[s3Key := size]> (w_bucket w)) w)) ;;
      emit (EvUpload (BUCKET_NAME cfg) s3Key tempFile true)
  | Some e =>
      emit (EvUpload (BUCKET_NAME cfg) s3Key tempFile false) ;;
      throw e
  end.

Definition attemptDownload (videoUrl s3Key playerClient : string) : M unit :=
  ensureCookieFileIfConfigured ;;
  let* now := Date_now in
  let tempFile := tempFileAt now in
  try_finally
    (try_catch
       (let* cookies := fs_existsSync COOKIE_LOCAL_PATH in
        let args :=
          (yt_dlp_args playerClient tempFile
             ++ (if cookies then ["--cookies"; COOKIE_LOCAL_PATH] else [])
             ++ [videoUrl])%list in
        spawn_yt_dlp args tempFile ;;
        let* stats := fs_statSync tempFile in
        if f_size stats =? 0 then throw (Error "Downloaded file is empty")
        else
          upload_done s3Key tempFile (f_size stats) ;;
          emit (EvAttemptSuccess s3Key playerClient tempFile (f_size stats)))
       (fun err =>
          emit (EvAttemptFailed videoUrl playerClient s3Key (err_message err)) ;;
          throw err))
    (let* left := fs_existsSync tempFile in
     if left then fs_unlinkSync tempFile else ret tt).

(** The body of [downloadToS3]'s [for (const client of clientStrategies)],
    from [client] on. *)
Fixpoint downloadToS3_from (videoUrl s3Key : string) (clients : list string) : M unit :=
  match clients with
  | [] => ret tt
  | client :: rest =>
      let* flow :=
        try_catch
          (attemptDownload videoUrl s3Key client ;; ret Return)
          (fun err =>
             console LvWarn
               ("Download failed with " +:+ client +:+ ": " +:+ err_message err) ;;
             if bool_decide
                  (clientStrategies !! (length clientStrategies - 1)%nat = Some client)
             then throw err
             else ret Continue) in
      match flow with
      | Return => ret tt
      | Continue => downloadToS3_from videoUrl s3Key rest
      end
  end.

Definition downloadToS3 (videoUrl s3Key : string) : M unit :=
  downloadToS3_from videoUrl s3Key clientStrategies.

(** ** The state table (DynamoDB) *)

Definition ValidationException : JSError :=
  mkError "ValidationException"
          "The provided key element does not match the schema".

Definition ConditionalCheckFailedException : JSError :=
  mkError "ConditionalCheckFailedException" "The conditional request failed".

(** The table is shared: rows written by other workers since the last call
    are there when the next request is served. *)
Definition ddb_request : M unit :=
  let* answer := ask (fun k => (env_ddb_fault env k, env_ddb_others env k)) in
  match fst answer with
  | Some e => throw e
  | None => fun w => (Normal tt, set_table (w_table w ∪ snd answer) w)
  end.

(** [ddbDocClient.send(new GetCommand({ TableName, Key: { videoId } }))];
    the result is [existing.Item]. *)
Definition GetCommand (videoId : JSValue) : M (option Item) :=
  emit (EvDdbGet (TABLE_NAME cfg) videoId) ;;
  ddb_request ;;
  match videoId with
  | JStr id => fun w => (Normal (w_table w !! id), w)
  | _ => throw ValidationException
  end.

(** [PutCommand] with [ConditionExpression: 'attribute_not_exists(videoId)']. *)
Definition PutCommand_if_absent (item : Item) : M unit :=
  emit (EvDdbPut (TABLE_NAME cfg) item) ;;
  ddb_request ;;
  let* taken := (fun w => (Normal (w_table w !! it_videoId item), w)) in
  match taken with
  | Some _ => throw ConditionalCheckFailedException
  | None =>
      fun w => (Normal tt, set_table (<[it_videoId item := item]> (w_table w)) w)
  end.

(** ** The batch handler *)

(** The [catch] block of the handler's loop body.  [videoId] is the local
    variable of that name: [''] until the destructuring assignment of line
    237, the message's [videoId] after it.  ([err.stack], the engine's stack
    text, is left out of the logged data.) *)
Definition onError (record : SQSRecord) (videoId : JSValue) (err : JSError) : M Flow :=
  recordMetric "DownloadFailures" 1 "Count" ;;
  log "DownloadError"
      [ ("videoId", js_or videoId (JStr "(unknown)"));
        ("recordId", JStr (messageId record));
        ("body", JStr (body record));
        ("error", JStr (err_message err)) ] ;;
  ret Continue.

(** Lines 240-280: the [try] block after the destructuring assignment. *)
Definition processVideo (videoId title : JSValue) : M Flow :=
  let* existing := GetCommand videoId in
  match existing with
  | Some _ =>
      console LvLog ("Skipping already downloaded video: " +:+ str_of videoId) ;;
      ret Continue
  | None =>
      let* start := Date_now in
      let* safeTitle := safeTitleOf title in
      let s3Key := s3KeyOf safeTitle (str_of videoId) in
      downloadToS3 (watchUrl (str_of videoId)) s3Key ;;
      let* downloadedAt := Date_now in
      PutCommand_if_absent
        (mkItem (str_of videoId) (str_of title) s3Key (BUCKET_NAME cfg) downloadedAt) ;;
      let* finish := Date_now in
      let duration := Qmake (finish - start) 1000 in
      recordMetric "VideosDownloaded" 1 "Count" ;;
      recordMetric "DownloadDuration" duration "Seconds" ;;
      log "DownloadSuccess"
          [ ("videoId", videoId);
            ("duration", JNum duration);
            ("s3Key", JStr s3Key);
            ("bucket", JStr (BUCKET_NAME cfg)) ] ;;
      ret Continue
  end.

(** One turn of [for (const record of event.Records)]. *)
Definition processRecord (record : SQSRecord) : M Flow :=
  match body_json record with
  | None =>
      (* [JSON.parse] throws before [videoId] is assigned *)
      onError record (JStr "") (SyntaxError "Unexpected token in JSON")
  | Some parsed =>
      if negb (truthy parsed) || negb (truthy (get_prop parsed "videoId")) then
        log "InvalidMessage"
            [ ("recordId", JStr (messageId record));
              ("body", JStr (body record)) ] ;;
        ret Return
      else
        let videoId := get_prop parsed "videoId" in
        let title := get_prop parsed "title" in
        try_catch (processVideo videoId title) (onError record videoId)
  end.

Fixpoint handler_from (records : list SQSRecord) : M Flow :=
  match records with
  | [] => ret Continue
  | record :: rest =>
      let* flow := processRecord record in
      match flow with
      | Return => ret Return
      | Continue => handler_from rest
      end
  end.

Definition handler (event : list SQSRecord) : M unit :=
  log "BatchStart" [("recordCount", JNum (inject_Z (Z.of_nat (length event))))] ;;
  let* flow := handler_from event in
  match flow with
  | Return => ret tt
  | Continue => log "BatchComplete" []
  end.

End Downloader.

(** ** Observations on a trace *)

(** The argument that follows [flag] on a command line. *)
Fixpoint arg_after (flag : string) (args : list string) : option string :=
  match args with
  | a :: rest =>
      if String.eqb a flag then head rest else arg_after flag rest
  | [] => None
  end.

Definition see_spawn (e : Event) : option string :=
  match e with
  | EvSpawn _ args => arg_after "--extractor-args" args
  | _ => None
  end.

Definition see_upload (e : Event) : option string :=
  match e with EvUpload _ key _ _ => Some key | _ => None end.

Definition see_upload_done (e : Event) : option string :=
  match e with EvUpload _ key _ true => Some key | _ => None end.

Definition see_success (e : Event) : option (string * string) :=
  match e with
  | EvAttemptSuccess key client _ _ => Some (key, client)
  | _ => None
  end.

Definition see_s3get (e : Event) : option (string * string) :=
  match e with EvS3Get b k => Some (b, k) | _ => None end.

Definition see_metric (e : Event) : option string :=
  match e with EvMetric name _ _ => Some name | _ => None end.

Definition see_log (e : Event) : option string :=
  match e with EvLog name _ _ => Some name | _ => None end.

Definition see_put (e : Event) : option Item :=
  match e with EvDdbPut _ item => Some item | _ => None end.

(** The [--extractor-args] of the children spawned, oldest first. *)
Definition spawn_identities (tr : list Event) : list string := omap see_spawn tr.

(** The keys of the uploads that were started, and of those that completed. *)
Definition uploads_issued (tr : list Event) : list string := omap see_upload tr.
Definition uploads_done (tr : list Event) : list string := omap see_upload_done tr.

(** The success banners: destination key and player client. *)
Definition attributed (tr : list Event) : list (string * string) := omap see_success tr.

(** The reads of the authoritative cookie object. *)
Definition s3_reads (tr : list Event) : list (string * string) := omap see_s3get tr.

(** The names of the metrics sent and of the structured log events written. *)
Definition metrics_sent (tr : list Event) : list string := omap see_metric tr.
Definition logged (tr : list Event) : list string := omap see_log tr.


(** The rows the handler asked the table to insert. *)
Definition puts (tr : list Event) : list Item := omap see_put tr.

(** The [--extractor-args] value of a strategy. *)
Definition identity_of (client : string) : string :=
  "youtube:player_client=" +:+ client.

(** [unchanged f m]: running [m] leaves the observation [f] of the world as
    it was, however [m] completes. *)
Definition unchanged {X A} (f : World -> X) (m : M A) : Prop :=
  forall w, f (snd (m w)) = f w.

(** Observations that the cookie cache does not feed. *)
Definition cookie_blind {X} (obs : Event -> option X) : Prop :=
  forall e,
    match e with
    | EvConsole _ _ | EvS3Get _ _ => obs e = None
    | _ => True
    end.

(** Observations that the whole fetch path (cookie cache, child process,
    upload) does not feed: they only see the handler's own events. *)
Definition fetch_blind {X} (obs : Event -> option X) : Prop :=
  forall e,
    match e with
    | EvLog _ _ _ | EvMetric _ _ _ | EvDdbGet _ _ | EvDdbPut _ _ => True
    | _ => obs e = None
    end.

(** Observations that the handler's own events do not feed. *)
Definition handler_blind {X} (obs : Event -> option X) : Prop :=
  forall e,
    match e with
    | EvLog _ _ _ | EvMetric _ _ _ | EvDdbGet _ _ | EvDdbPut _ _
    | EvConsole _ _ => obs e = None
    | _ => True
    end.



(** The same environment, except that every child exits with [code]. *)
Definition exits_with (code : Z) (env : Env) : Env :=
  mkEnv (env_now env) (env_s3get env)
    (fun k args =>
       let child := env_spawn env k args in
       mkSpawn (sp_stderr child) (sp_output child) (Closed (Some code)))
    (env_upload env) (env_ddb_fault env) (env_ddb_others env) (env_metric env).

Section Observers.

Variable cfg : Config.
Variable env : Env.

(** What one call of [attemptDownload] from [w] meets: the world after the
    cookie refresh, the temporary file it names, the command line it builds
    and the child it gets. *)
Definition attempt_start (w : World) : World :=
  snd (ensureCookieFileIfConfigured cfg env w).

Definition attempt_tempFile (w : World) : string :=
  tempFileAt (env_now env (w_tick (attempt_start w))).

Definition attempt_args (url client : string) (w : World) : list string :=
  (yt_dlp_args client (attempt_tempFile w)
   ++ (if bool_decide (is_Some (w_fs (attempt_start w) !! COOKIE_LOCAL_PATH))
       then ["--cookies"; COOKIE_LOCAL_PATH] else [])
   ++ [url])%list.

Definition attempt_child (url client : string) (w : World) : SpawnOutcome :=
  env_spawn env (S (w_tick (attempt_start w))) (attempt_args url client w).

Definition stderr_events (child : SpawnOutcome) : list Event :=
  map (fun line => EvConsole LvLog ("yt-dlp: " +:+ line)) (sp_stderr child).

Definition after_child (child : SpawnOutcome) (out : string)
    (fs : gmap string File) : gmap string File :=
  match sp_output child with
  | Some f => <[out := f]> fs
  | None => fs
  end.

(** The local disk once the child of the attempt from [w] has ended. *)
Definition attempt_disk (url client : string) (w : World) : gmap string File :=
  after_child (attempt_child url client w) (attempt_tempFile w)
              (w_fs (attempt_start w)).

(** The trace once the child of the attempt from [w] has ended. *)
Definition attempt_trace (url client : string) (w : World) : list Event :=
  (w_trace (attempt_start w)
   ++ EvSpawn "yt-dlp" (attempt_args url client w)
   :: stderr_events (attempt_child url client w))%list.

(** The world in which [downloadToS3]'s loop goes on (or gives up) after
    [client] failed with [err]. *)
Definition warned (client : string) (err : JSError) (w : World) : World :=
  set_trace
    (w_trace w
     ++ [EvConsole LvWarn
           ("Download failed with " +:+ client +:+ ": " +:+ err_message err)])%list
    w.

(** The strategies [clients] are tried from [w] and fail one after the
    other; the result is the world they leave behind. *)
Fixpoint fail_in_turn (url key : string) (clients : list string) (w : World)
    : option World :=
  match clients with
  | [] => Some w
  | client :: rest =>
      match attemptDownload cfg env url key client w with
      | (Thrown err, w') => fail_in_turn url key rest (warned client err w')
      | (Normal _, _) => None
      end
  end.

(** The table as a request served now sees it. *)
Definition table_seen (w : World) : gmap string Item :=
  w_table w ∪ env_ddb_others env (w_tick w).

(** The data logged with [DownloadError]. *)
Definition error_data (record : SQSRecord) (videoId : JSValue) (err : JSError)
    : list (string * JSValue) :=
  [ ("videoId", js_or videoId (JStr "(unknown)"));
    ("recordId", JStr (messageId record));
    ("body", JStr (body record));
    ("error", JStr (err_message err)) ].

End Observers.

(** ** Sample inputs *)

Module Sample.

Definition cfg : Config :=
  mkConfig "videos-bucket" "state-table" "secrets/cookies.txt" (Some 168).

(** A child that writes five bytes and exits 0. *)
Definition good_child : SpawnOutcome :=
  mkSpawn ["[download] 100%"] (Some (mkFile 5 0 420)) (Closed (Some 0)).

(** A child that exits 0 and leaves an empty file. *)
Definition empty_child : SpawnOutcome :=
  mkSpawn [] (Some (mkFile 0 0 420)) (Closed (Some 0)).

(** A child that exits 1 and leaves nothing. *)
Definition bad_child : SpawnOutcome :=
  mkSpawn ["ERROR: Sign in to confirm"] None (Closed (Some 1)).

Definition clock (k : nat) : Z := 1700000000000 + Z.of_nat k.

(** Everything works, except that the bucket holds no cookie object. *)
Definition env_ok : Env :=
  mkEnv clock (fun _ => S3GetFails (Error "NoSuchKey"))
    (fun _ _ => good_child) (fun _ _ => None)
    (fun _ => None) (fun _ => ∅) (fun _ => None).

(** Only the last strategy gets through. *)
Definition env_fallback : Env :=
  mkEnv clock (fun _ => S3GetFails (Error "NoSuchKey"))
    (fun _ args =>
       if bool_decide (arg_after "--extractor-args" args
                       = Some (identity_of "android_creator"))
       then good_child else bad_child)
    (fun _ _ => None)
    (fun _ => None) (fun _ => ∅) (fun _ => None).

(** No strategy gets through. *)
Definition env_blocked : Env :=
  mkEnv clock (fun _ => S3GetFails (Error "NoSuchKey"))
    (fun _ _ => bad_child) (fun _ _ => None)
    (fun _ => None) (fun _ => ∅) (fun _ => None).

(** Every child leaves an empty file. *)
Definition env_empty : Env :=
  mkEnv clock (fun _ => S3GetFails (Error "NoSuchKey"))
    (fun _ _ => empty_child) (fun _ _ => None)
    (fun _ => None) (fun _ => ∅) (fun _ => None).


(** The cookie object is there and is read in full. *)
Definition env_cookie : Env :=
  mkEnv clock (fun _ => S3Body 2048 1700000000000)
    (fun _ _ => good_child) (fun _ _ => None)
    (fun _ => None) (fun _ => ∅) (fun _ => None).



Definition fresh_world : World := mkWorld 0 ∅ ∅ ∅ [].

(** JSON text is written with [quoted]: a name or a string between double
    quotes. *)
Definition quoted (s : string) : string :=
  String (ascii_of_nat 34) s +:+ String (ascii_of_nat 34) EmptyString.

(** A message with id and title. *)
Definition video_json : JSValue :=
  JObj [("videoId", JStr "dQw4w9WgXcQ"); ("title", JStr "Never Gonna: Give/You Up!")].
Definition video_msg : SQSRecord :=
  mkRecord "msg-1"
    ("{" +:+ quoted "videoId" +:+ ":" +:+ quoted "dQw4w9WgXcQ" +:+ ","
         +:+ quoted "title" +:+ ":" +:+ quoted "Never Gonna: Give/You Up!" +:+ "}")
    (Some video_json).

(** A message without [videoId]. *)
Definition no_id_msg : SQSRecord :=
  mkRecord "msg-0" "{}" (Some (JObj [])).

(** A message without [title]. *)
Definition no_title_json : JSValue := JObj [("videoId", JStr "dQw4w9WgXcQ")].
Definition no_title_msg : SQSRecord :=
  mkRecord "msg-2"
    ("{" +:+ quoted "videoId" +:+ ":" +:+ quoted "dQw4w9WgXcQ" +:+ "}")
    (Some no_title_json).

(** A world whose cached cookie file was written at [mtime]. *)
Definition cached_at (mtime : Z) : World :=
  mkWorld 0 {[ COOKIE_LOCAL_PATH := mkFile 2048 mtime 384 ]} ∅ ∅ [].

Definition hour : Z := 3600000.

Definition video_id : string := "dQw4w9WgXcQ".
Definition video_url : string := watchUrl video_id.
Definition video_key : string := "videos/Never Gonna_ Give_You Up__dQw4w9WgXcQ.mp4".

(** Worlds with a cached cookie file 167 and 169 hours old at tick 0. *)
Definition cached_fresh : World := cached_at (clock 0 - 167 * hour).
Definition cached_stale : World := cached_at (clock 0 - 169 * hour).

(** Where [env_fallback] leaves the fetch after the first three strategies. *)
Definition after_three : World :=
  default fresh_world
    (fail_in_turn cfg env_fallback video_url video_key ["ios"; "ios,web"; "web"]
       fresh_world).

(** Where the fourth attempt then leaves it. *)
Definition fallback_done : World :=
  snd (attemptDownload cfg env_fallback video_url video_key "android_creator"
         after_three).

(** A first run of the handler on the video message. *)
Definition first_run : Completion unit * World :=
  handler cfg env_ok [video_msg] fresh_world.




End Sample.

(** ** Further observations *)

(** The answers of the bucket that are not a body read in full. *)
Definition s3_failed (o : S3GetOutcome) : bool :=
  match o with
  | S3Body _ _ => false
  | S3GetFails _ | S3BodyBroken _ _ _ => true
  end.

(** The child has exited with code 0 and left a non-empty file at [out]. *)
Definition extracted (child : SpawnOutcome) (disk : gmap string File)
    (out : string) : bool :=
  match child_rejection (sp_end child) with
  | Some _ => false
  | None =>
      match disk !! out with
      | Some f => negb (f_size f =? 0)
      | None => false
      end
  end.

(** The command lines of the children spawned, oldest first. *)
Definition see_args (e : Event) : option (list string) :=
  match e with EvSpawn _ args => Some args | _ => None end.
Definition spawn_args (tr : list Event) : list (list string) := omap see_args tr.


(** [kept R m]: running [m] takes every world to one related to it by [R],
    however [m] completes. *)
Definition kept {A} (R : World -> World -> Prop) (m : M A) : Prop :=
  forall w, R w (snd (m w)).

(** The table only gains rows: what is there stays as it is. *)
Definition rows_stay (w w' : World) : Prop :=
  forall id row, w_table w !! id = Some row -> w_table w' !! id = Some row.

(** The trace has grown by at most [spawns] children, [dones] completed
    uploads and [asks] insert requests. *)
Definition within (spawns dones asks : nat) (w w' : World) : Prop :=
  (length (spawn_identities (w_trace w'))
     <= length (spawn_identities (w_trace w)) + spawns)%nat /\
  (length (uploads_done (w_trace w'))
     <= length (uploads_done (w_trace w)) + dones)%nat /\
  (length (puts (w_trace w')) <= length (puts (w_trace w)) + asks)%nat.

(** What one turn may leave in the world, compared with the world before:
    at most four children; either no insert request and at most one
    completed upload, or one insert request for an item whose destination
    key has just been uploaded and is in the bucket. *)
Definition turn_bounded (cfg : Config) (w w' : World) : Prop :=
  exists ids dones,
    spawn_identities (w_trace w') = (spawn_identities (w_trace w) ++ ids)%list /\
    (length ids <= 4)%nat /\
    uploads_done (w_trace w') = (uploads_done (w_trace w) ++ dones)%list /\
    ((puts (w_trace w') = puts (w_trace w) /\ (length dones <= 1)%nat) \/
     (exists item,
        puts (w_trace w') = (puts (w_trace w) ++ [item])%list /\
        dones = [it_s3Key item] /\
        it_s3Bucket item = BUCKET_NAME cfg /\
        is_Some (w_bucket w' !! it_s3Key item))).

Module More.

Import Sample.

(** The bucket holds the cookie object, but its stream breaks half way. *)
Definition env_broken : Env :=
  mkEnv clock (fun _ => S3BodyBroken (Some 1024) 1700000000000 (Error "ECONNRESET"))
    (fun _ _ => good_child) (fun _ _ => None)
    (fun _ => None) (fun _ => ∅) (fun _ => None).

(** CloudWatch rejects every datum. *)
Definition env_no_metrics : Env :=
  mkEnv clock (fun _ => S3GetFails (Error "NoSuchKey"))
    (fun _ _ => good_child) (fun _ _ => None)
    (fun _ => None) (fun _ => ∅) (fun _ => Some (Error "Throttling")).

(** The same configuration with an unparsable [COOKIE_MAX_AGE_HOURS]. *)
Definition cfg_nan : Config :=
  mkConfig "videos-bucket" "state-table" "secrets/cookies.txt" None.

(** A message whose body is not JSON. *)
Definition garbled_msg : SQSRecord := mkRecord "msg-3" "not json" None.

(** The worlds of the video message's turn under [env_ok]: after its lookup
    and after its fetch. *)
Definition ok_checked : World :=
  snd (GetCommand cfg env_ok (JStr video_id) fresh_world).
Definition ok_fetched : World :=
  snd (downloadToS3 cfg env_ok video_url video_key
         (set_tick (S (w_tick ok_checked)) ok_checked)).

End More.

(** ** Frame reasoning *)

Lemma unchanged_ret {X A} (f : World -> X) (a : A) : unchanged f (ret a).
Proof. intros w; reflexivity. Qed.

Lemma unchanged_throw {X A} (f : World -> X) e : unchanged f (@throw A e).
Proof. intros w; reflexivity. Qed.

Lemma unchanged_bind {X A B} (f : World -> X) (m : M A) (k : A -> M B) :
  unchanged f m -> (forall a, unchanged f (k a)) -> unchanged f (bind m k).
Proof.
  intros Hm Hk w. unfold bind. specialize (Hm w).
  destruct (m w) as [[a|e] w1]; simpl in *; [|assumption].
  rewrite Hk. assumption.
Qed.

Lemma unchanged_try_catch {X A} (f : World -> X) (m : M A) h :
  unchanged f m -> (forall e, unchanged f (h e)) -> unchanged f (try_catch m h).
Proof.
  intros Hm Hh w. unfold try_catch. specialize (Hm w).
  destruct (m w) as [[a|e] w1]; simpl in *; [assumption|].
  rewrite Hh. assumption.
Qed.

Lemma unchanged_try_finally {X A} (f : World -> X) (m : M A) c :
  unchanged f m -> unchanged f c -> unchanged f (try_finally m c).
Proof.
  intros Hm Hc w. unfold try_finally. specialize (Hm w).
  destruct (m w) as [r w1]; simpl in *. specialize (Hc w1).
  destruct (c w1) as [[a|e] w2]; simpl in *; congruence.
Qed.

Lemma unchanged_forEach {X A} (f : World -> X) (g : A -> M unit) l :
  (forall a, unchanged f (g a)) -> unchanged f (forEach g l).
Proof.
  intros Hg. induction l as [|a l IH]; simpl.
  - apply unchanged_ret.
  - apply unchanged_bind; [apply Hg | intros _; exact IH].
Qed.

(** An observation of the trace that the event [e] does not feed. *)
Lemma unchanged_emit {X} (obs : Event -> option X) e :
  obs e = None -> unchanged (fun w => omap obs (w_trace w)) (emit e).
Proof.
  intros He w. simpl. rewrite omap_app. simpl. rewrite He. apply app_nil_r.
Qed.

Ltac frame_prim :=
  let w := fresh "w" in
  intros w;
  unfold emit, ask, fs_existsSync, fs_statSync, fs_unlinkSync, fs_renameSync,
    fs_chmodSync, fs_put;
  cbn [snd fst w_tick w_fs w_bucket w_table w_trace
       set_tick set_fs set_bucket set_table set_trace];
  repeat case_match;
  cbn [snd fst w_tick w_fs w_bucket w_table w_trace
       set_tick set_fs set_bucket set_table set_trace];
  first [ reflexivity
        | rewrite omap_app; cbn; apply app_nil_r ].

Create HintDb frame.

Ltac frame :=
  repeat
    lazymatch goal with
    | |- unchanged _ (bind _ _) => apply unchanged_bind; [|intros ?]
    | |- unchanged _ (try_catch _ _) => apply unchanged_try_catch; [|intros ?]
    | |- unchanged _ (try_finally _ _) => apply unchanged_try_finally
    | |- unchanged _ (forEach _ _) => apply unchanged_forEach; intros ?
    | |- unchanged _ (ret _) => apply unchanged_ret
    | |- unchanged _ (throw _) => apply unchanged_throw
    | |- unchanged _ (match ?x with _ => _ end) => destruct x
    | |- unchanged _ _ =>
        first [ assumption
              | solve [auto with frame]
              | apply unchanged_emit; solve [auto with frame]
              | frame_prim ]
    end.

Lemma see_metric_blind : fetch_blind see_metric.
Proof. intros []; exact I || reflexivity. Qed.

Lemma see_log_blind : fetch_blind see_log.
Proof. intros []; exact I || reflexivity. Qed.

Lemma see_put_blind : fetch_blind see_put.
Proof. intros []; exact I || reflexivity. Qed.

Lemma fetch_blind_cookie {X} (obs : Event -> option X) :
  fetch_blind obs -> cookie_blind obs.
Proof. intros H e. specialize (H e). destruct e; auto. Qed.

Lemma see_spawn_cookie : cookie_blind see_spawn.
Proof. intros []; exact I || reflexivity. Qed.

Lemma see_upload_cookie : cookie_blind see_upload.
Proof. intros []; exact I || reflexivity. Qed.

Lemma see_upload_done_cookie : cookie_blind see_upload_done.
Proof. intros []; exact I || reflexivity. Qed.

Lemma see_success_cookie : cookie_blind see_success.
Proof. intros []; exact I || reflexivity. Qed.

Lemma see_spawn_handler : handler_blind see_spawn.
Proof. intros []; exact I || reflexivity. Qed.

Lemma see_upload_handler : handler_blind see_upload.
Proof. intros []; exact I || reflexivity. Qed.

Lemma see_upload_done_handler : handler_blind see_upload_done.
Proof. intros []; exact I || reflexivity. Qed.

Section Frames.

Variable cfg : Config.
Variable env : Env.

Lemma ensureCookie_quiet {X} (obs : Event -> option X) :
  cookie_blind obs ->
  unchanged (fun w => omap obs (w_trace w)) (ensureCookieFileIfConfigured cfg env).
Proof.
  intros Hobs.
  assert (forall lv t, obs (EvConsole lv t) = None) by (intros; apply (Hobs (EvConsole _ _))).
  assert (forall b k, obs (EvS3Get b k) = None) by (intros; apply (Hobs (EvS3Get _ _))).
  unfold ensureCookieFileIfConfigured, s3_GetObject, pipeline_to_file,
    console, Date_now.
  frame.
Qed.

Lemma attemptDownload_quiet {X} (obs : Event -> option X) url key client :
  fetch_blind obs ->
  unchanged (fun w => omap obs (w_trace w)) (attemptDownload cfg env url key client).
Proof.
  intros Hobs.
  pose proof (ensureCookie_quiet obs (fetch_blind_cookie obs Hobs)).
  assert (forall lv t, obs (EvConsole lv t) = None) by (intros; apply (Hobs (EvConsole _ _))).
  assert (forall c a, obs (EvSpawn c a) = None) by (intros; apply (Hobs (EvSpawn _ _))).
  assert (forall b k p d, obs (EvUpload b k p d) = None)
    by (intros; apply (Hobs (EvUpload _ _ _ _))).
  assert (forall k c t n, obs (EvAttemptSuccess k c t n) = None)
    by (intros; apply (Hobs (EvAttemptSuccess _ _ _ _))).
  assert (forall u c k m, obs (EvAttemptFailed u c k m) = None)
    by (intros; apply (Hobs (EvAttemptFailed _ _ _ _))).
  unfold attemptDownload, spawn_yt_dlp, upload_done, console, Date_now.
  frame.
Qed.

Lemma downloadToS3_from_quiet {X} (obs : Event -> option X) url key clients :
  fetch_blind obs ->
  unchanged (fun w => omap obs (w_trace w)) (downloadToS3_from cfg env url key clients).
Proof.
  intros Hobs.
  pose proof (fun client => attemptDownload_quiet obs url key client Hobs).
  assert (forall lv t, obs (EvConsole lv t) = None) by (intros; apply (Hobs (EvConsole _ _))).
  induction clients as [|client rest IH]; simpl; unfold console; frame.
Qed.

Lemma downloadToS3_quiet {X} (obs : Event -> option X) url key :
  fetch_blind obs ->
  unchanged (fun w => omap obs (w_trace w)) (downloadToS3 cfg env url key).
Proof. apply downloadToS3_from_quiet. Qed.

Lemma ensureCookie_table :
  unchanged w_table (ensureCookieFileIfConfigured cfg env).
Proof.
  unfold ensureCookieFileIfConfigured, s3_GetObject, pipeline_to_file, console, Date_now.
  frame.
Qed.

Lemma ensureCookie_bucket :
  unchanged w_bucket (ensureCookieFileIfConfigured cfg env).
Proof.
  unfold ensureCookieFileIfConfigured, s3_GetObject, pipeline_to_file, console, Date_now.
  frame.
Qed.

Lemma attemptDownload_table url key client :
  unchanged w_table (attemptDownload cfg env url key client).
Proof.
  pose proof ensureCookie_table.
  unfold attemptDownload, spawn_yt_dlp, upload_done, console, Date_now.
  frame.
Qed.

Lemma downloadToS3_from_table url key clients :
  unchanged w_table (downloadToS3_from cfg env url key clients).
Proof.
  pose proof (attemptDownload_table url key).
  induction clients as [|client rest IH]; simpl; unfold console; frame.
Qed.

Lemma downloadToS3_table url key : unchanged w_table (downloadToS3 cfg env url key).
Proof. apply downloadToS3_from_table. Qed.

End Frames.

(** ** Sanitizing the title *)



Lemma substring_0_length n s :
  String.length (String.substring 0 n s) = Nat.min n (String.length s).
Proof.
  revert s; induction n as [|n IH]; intros [|c s]; simpl; auto.
Qed.


(** ** One download attempt *)

Section Attempt.

Variable cfg : Config.
Variable env : Env.

Lemma forEach_console lv (g : string -> string) ls w :
  forEach (fun l => console lv (g l)) ls w
  = (Normal tt,
     set_trace (w_trace w ++ map (fun l => EvConsole lv (g l)) ls)%list w).
Proof.
  revert w; induction ls as [|l ls IH]; intros w; simpl.
  - unfold ret, set_trace. rewrite app_nil_r. destruct w; reflexivity.
  - unfold bind, console, emit at 1. rewrite IH. unfold set_trace; simpl.
    rewrite <- app_assoc. reflexivity.
Qed.

(** The [finally] block of [attemptDownload]: whatever the [try] did, the
    temporary file is gone afterwards. *)
Lemma finally_unlink {A} (m : M A) tempFile w :
  try_finally m
    (let* left := fs_existsSync tempFile in
     if left then fs_unlinkSync tempFile else ret tt) w
  = (fst (m w), set_fs (delete tempFile (w_fs (snd (m w)))) (snd (m w))).
Proof.
  unfold try_finally. destruct (m w) as [r w1].
  unfold bind, fs_existsSync, fs_unlinkSync, ret. simpl.
  destruct (w_fs w1 !! tempFile) as [f|] eqn:E.
  - rewrite bool_decide_true by eauto. rewrite E. reflexivity.
  - rewrite bool_decide_false by (intros [? ?]; congruence).
    rewrite delete_id by assumption. destruct w1; reflexivity.
Qed.

(** The cookie refresh never throws. *)
Lemma ensureCookie_normal w :
  fst (ensureCookieFileIfConfigured cfg env w) = Normal tt.
Proof.
  unfold ensureCookieFileIfConfigured, try_catch, bind, s3_GetObject,
    pipeline_to_file, console, Date_now, emit, ask, ret, throw,
    fs_existsSync, fs_statSync, fs_renameSync, fs_chmodSync, fs_unlinkSync, fs_put.
  repeat (case_match; simplify_eq/=; try reflexivity).
Qed.

Lemma ensureCookie_run w :
  ensureCookieFileIfConfigured cfg env w = (Normal tt, attempt_start cfg env w).
Proof.
  unfold attempt_start. pose proof (ensureCookie_normal w) as H.
  destruct (ensureCookieFileIfConfigured cfg env w); simpl in *; congruence.
Qed.

Lemma spawn_yt_dlp_run args out w :
  let child := env_spawn env (w_tick w) args in
  spawn_yt_dlp env args out w =
    (match child_rejection (sp_end child) with
     | Some e => Thrown e
     | None => Normal tt
     end,
     mkWorld (S (w_tick w)) (after_child child out (w_fs w)) (w_bucket w) (w_table w)
       (w_trace w ++ EvSpawn "yt-dlp" args :: stderr_events child)%list).
Proof.
  intros child. unfold spawn_yt_dlp.
  unfold bind at 1, emit at 1. unfold bind at 1, ask at 1.
  cbn [w_tick set_trace set_tick]. fold child.
  unfold bind at 1, after_child.
  assert (forall w0, (match sp_output child with
            | Some f => fs_put out f | None => ret tt end) w0
          = (Normal tt, set_fs (match sp_output child with
              | Some f => <[out:=f]> (w_fs w0) | None => w_fs w0 end) w0)) as ->.
  { intros w0. destruct (sp_output child); [reflexivity|]. destruct w0; reflexivity. }
  unfold bind at 1. rewrite forEach_console.
  unfold stderr_events.
  destruct (child_rejection (sp_end child)); cbn; rewrite <- app_assoc; reflexivity.
Qed.

(** The [try]/[catch] of [attemptDownload], before the [finally]. *)
Lemma attempt_try_run url key client tempFile w :
  let args :=
    (yt_dlp_args client tempFile
     ++ (if bool_decide (is_Some (w_fs w !! COOKIE_LOCAL_PATH))
         then ["--cookies"; COOKIE_LOCAL_PATH] else [])
     ++ [url])%list in
  let child := env_spawn env (w_tick w) args in
  let fs2 := after_child child tempFile (w_fs w) in
  let tr2 := (w_trace w ++ EvSpawn "yt-dlp" args :: stderr_events child)%list in
  let failed (e : JSError) : Completion unit * World :=
    (Thrown e, mkWorld (S (w_tick w)) fs2 (w_bucket w) (w_table w)
                 (tr2 ++ [EvAttemptFailed url client key (err_message e)])%list) in
  try_catch
    (let* cookies := fs_existsSync COOKIE_LOCAL_PATH in
     let args :=
       (yt_dlp_args client tempFile
          ++ (if cookies then ["--cookies"; COOKIE_LOCAL_PATH] else [])
          ++ [url])%list in
     spawn_yt_dlp env args tempFile ;;
     let* stats := fs_statSync tempFile in
     if f_size stats =? 0 then throw (Error "Downloaded file is empty")
     else
       upload_done cfg env key tempFile (f_size stats) ;;
       emit (EvAttemptSuccess key client tempFile (f_size stats)))
    (fun err =>
       emit (EvAttemptFailed url client key (err_message err)) ;;
       throw err) w
  = match child_rejection (sp_end child) with
    | Some e => failed e
    | None =>
        match fs2 !! tempFile with
        | None => failed (ENOENT tempFile)
        | Some f =>
            if f_size f =? 0 then failed (Error "Downloaded file is empty")
            else
              match env_upload env (S (w_tick w)) key with
              | Some e =>
                  (Thrown e,
                   mkWorld (S (S (w_tick w))) fs2 (w_bucket w) (w_table w)
                     (tr2 ++ [EvUpload (BUCKET_NAME cfg) key tempFile false;
                              EvAttemptFailed url client key (err_message e)])%list)
              | None =>
                  (Normal tt,
                   mkWorld (S (S (w_tick w))) fs2
                     (<[key := f_size f]> (w_bucket w)) (w_table w)
                     (tr2 ++ [EvUpload (BUCKET_NAME cfg) key tempFile true;
                              EvAttemptSuccess key client tempFile (f_size f)])%list)
              end
        end
    end.
Proof.
  intros args child fs2 tr2 failed.
  unfold try_catch, bind at 1, fs_existsSync at 1.
  fold args.
  unfold bind at 1. rewrite spawn_yt_dlp_run.
  fold child. fold fs2. fold tr2.
  destruct (child_rejection (sp_end child)) as [e|].
  { reflexivity. }
  unfold bind at 1, fs_statSync at 1. cbn [w_fs].
  destruct (fs2 !! tempFile) as [f|]; [|reflexivity].
  destruct (f_size f =? 0); [reflexivity|].
  unfold upload_done, bind, ask, emit, throw. cbn [w_tick].
  destruct (env_upload env (S (w_tick w)) key); cbn; rewrite <- app_assoc; reflexivity.
Qed.

(** What one attempt does, case by case: the child is rejected, leaves no
    file, leaves an empty file, or leaves a file whose upload fails or
    completes. *)
Lemma attemptDownload_run url key client w :
  let w1 := attempt_start cfg env w in
  let t := w_tick w1 in
  let tempFile := attempt_tempFile cfg env w in
  let fs2 := attempt_disk cfg env url client w in
  let tr2 := attempt_trace cfg env url client w in
  let failed (e : JSError) : Completion unit * World :=
    (Thrown e, mkWorld (S (S t)) (delete tempFile fs2) (w_bucket w1) (w_table w1)
                 (tr2 ++ [EvAttemptFailed url client key (err_message e)])%list) in
  attemptDownload cfg env url key client w =
    match child_rejection (sp_end (attempt_child cfg env url client w)) with
    | Some e => failed e
    | None =>
        match fs2 !! tempFile with
        | None => failed (ENOENT tempFile)
        | Some f =>
            if f_size f =? 0 then failed (Error "Downloaded file is empty")
            else
              match env_upload env (S (S t)) key with
              | Some e =>
                  (Thrown e,
                   mkWorld (S (S (S t))) (delete tempFile fs2) (w_bucket w1) (w_table w1)
                     (tr2 ++ [EvUpload (BUCKET_NAME cfg) key tempFile false;
                              EvAttemptFailed url client key (err_message e)])%list)
              | None =>
                  (Normal tt,
                   mkWorld (S (S (S t))) (delete tempFile fs2)
                     (<[key := f_size f]> (w_bucket w1)) (w_table w1)
                     (tr2 ++ [EvUpload (BUCKET_NAME cfg) key tempFile true;
                              EvAttemptSuccess key client tempFile (f_size f)])%list)
              end
        end
    end.
Proof.
  intros w1 t tempFile fs2 tr2 failed.
  unfold attemptDownload. unfold bind at 1.
  rewrite ensureCookie_run. fold w1.
  unfold bind at 1, Date_now, ask.
  change (tempFileAt (env_now env (w_tick w1))) with tempFile.
  rewrite finally_unlink, attempt_try_run.
  cbn [w_tick w_fs w_bucket w_table w_trace set_tick].
  change (env_spawn env (S (w_tick w1)) _) with (attempt_child cfg env url client w).
  change (after_child _ tempFile (w_fs w1)) with fs2.
  change (w_trace w1 ++ EvSpawn "yt-dlp" _ :: stderr_events _)%list with tr2.
  fold t.
  destruct (child_rejection (sp_end (attempt_child cfg env url client w))) as [e|];
    [reflexivity|].
  destruct (fs2 !! tempFile) as [f|]; [|reflexivity].
  destruct (f_size f =? 0); [reflexivity|].
  destruct (env_upload env (S (S t)) key); reflexivity.
Qed.

Lemma see_spawn_args url client w :
  see_spawn (EvSpawn "yt-dlp" (attempt_args cfg env url client w))
  = Some (identity_of client).
Proof. reflexivity. Qed.

Lemma omap_stderr_events {X} (obs : Event -> option X) child :
  (forall lv t, obs (EvConsole lv t) = None) ->
  omap obs (stderr_events child) = [].
Proof.
  intros H. unfold stderr_events.
  induction (sp_stderr child) as [|l ls IH]; simpl; [reflexivity|].
  rewrite H. exact IH.
Qed.

(** What an observation that the cookie cache and the console do not feed
    sees of the trace at the end of the child. *)
Lemma omap_attempt_trace {X} (obs : Event -> option X) url client w :
  cookie_blind obs ->
  omap obs (attempt_trace cfg env url client w)
  = (omap obs (w_trace w)
     ++ omap obs [EvSpawn "yt-dlp" (attempt_args cfg env url client w)])%list.
Proof.
  intros Hobs. unfold attempt_trace.
  rewrite omap_app.
  pose proof (ensureCookie_quiet cfg env obs Hobs w) as Hq. simpl in Hq.
  fold (attempt_start cfg env w) in Hq. rewrite Hq.
  f_equal.
  change (EvSpawn "yt-dlp" ?a :: ?l) with ([EvSpawn "yt-dlp" a] ++ l)%list.
  rewrite omap_app, omap_stderr_events, app_nil_r; [reflexivity|].
  intros lv t. exact (Hobs (EvConsole lv t)).
Qed.

(** One attempt spawns exactly one child, with its strategy's identity; it
    completes an upload, and prints the success banner, exactly when it
    returns; when it throws, the bucket is as before. *)
Lemma attemptDownload_observed url key client w r w' :
  attemptDownload cfg env url key client w = (r, w') ->
  spawn_identities (w_trace w')
    = (spawn_identities (w_trace w) ++ [identity_of client])%list /\
  uploads_done (w_trace w')
    = (uploads_done (w_trace w)
       ++ match r with Normal _ => [key] | Thrown _ => [] end)%list /\
  attributed (w_trace w')
    = (attributed (w_trace w)
       ++ match r with Normal _ => [(key, client)] | Thrown _ => [] end)%list /\
  (forall e, r = Thrown e -> w_bucket w' = w_bucket w).
Proof.
  rewrite attemptDownload_run.
  pose proof (omap_attempt_trace see_spawn url client w see_spawn_cookie) as Hs.
  pose proof (omap_attempt_trace see_upload_done url client w see_upload_done_cookie) as Hu.
  pose proof (omap_attempt_trace see_success url client w see_success_cookie) as Ha.
  pose proof (ensureCookie_bucket cfg env w) as Hb.
  fold (attempt_start cfg env w) in Hb.
  change (omap see_spawn [EvSpawn "yt-dlp" (attempt_args cfg env url client w)])
    with [identity_of client] in Hs.
  simpl in Hu, Ha. rewrite app_nil_r in Hu, Ha.
  unfold spawn_identities, uploads_done, attributed.
  intros H.
  repeat case_match; simplify_eq/=;
    rewrite !omap_app, Hs, Hu, Ha; simpl; rewrite ?app_nil_r;
    (split; [reflexivity|split; [reflexivity|split; [reflexivity|]]]);
    intros; congruence || assumption.
Qed.

End Attempt.

(** ** The strategy loop *)

Section Loop.

Variable cfg : Config.
Variable env : Env.

Lemma downloadToS3_from_ok url key client rest w w' :
  attemptDownload cfg env url key client w = (Normal tt, w') ->
  downloadToS3_from cfg env url key (client :: rest) w = (Normal tt, w').
Proof.
  intros H. simpl. unfold bind at 1, try_catch, bind at 1. rewrite H. reflexivity.
Qed.

Lemma downloadToS3_from_next url key client rest w err w' :
  attemptDownload cfg env url key client w = (Thrown err, w') ->
  client <> "android_creator" ->
  downloadToS3_from cfg env url key (client :: rest) w
  = downloadToS3_from cfg env url key rest (warned client err w').
Proof.
  intros H Hne. simpl. unfold bind at 1, try_catch, bind at 1. rewrite H.
  unfold bind at 1, console, emit. fold (warned client err w').
  rewrite bool_decide_false; [reflexivity|].
  simpl. congruence.
Qed.

Lemma downloadToS3_from_last url key rest w err w' :
  attemptDownload cfg env url key "android_creator" w = (Thrown err, w') ->
  downloadToS3_from cfg env url key ("android_creator" :: rest) w
  = (Thrown err, warned "android_creator" err w').
Proof.
  intros H. simpl. unfold bind at 1, try_catch, bind at 1. rewrite H.
  unfold bind at 1, console, emit. reflexivity.
Qed.

Lemma fail_in_turn_prefix url key pre rest w w' :
  fail_in_turn cfg env url key pre w = Some w' ->
  "android_creator" ∉ pre ->
  downloadToS3_from cfg env url key (pre ++ rest) w
  = downloadToS3_from cfg env url key rest w'.
Proof.
  revert w. induction pre as [|client pre IH]; intros w H Hlast.
  - simplify_eq/=. reflexivity.
  - cbn [fail_in_turn] in H.
    destruct (attemptDownload cfg env url key client w) as [[[]|err] w1] eqn:E;
      [discriminate|].
    rewrite <- app_comm_cons.
    rewrite (downloadToS3_from_next _ _ _ _ _ _ _ E).
    + apply IH; [assumption|]. intros Hin. apply Hlast. right. assumption.
    + intros ->. apply Hlast. left.
Qed.

(** Strategies that fail in turn spawn one child each, in order, complete no
    upload, print no success banner and leave bucket and table alone. *)
Lemma fail_in_turn_observed url key clients w w' :
  fail_in_turn cfg env url key clients w = Some w' ->
  spawn_identities (w_trace w')
    = (spawn_identities (w_trace w) ++ map identity_of clients)%list /\
  uploads_done (w_trace w') = uploads_done (w_trace w) /\
  attributed (w_trace w') = attributed (w_trace w) /\
  w_bucket w' = w_bucket w /\
  w_table w' = w_table w.
Proof.
  revert w. induction clients as [|client rest IH]; intros w H.
  - simpl in H. simplify_eq. simpl. rewrite app_nil_r. auto.
  - cbn [fail_in_turn] in H.
    destruct (attemptDownload cfg env url key client w) as [[[]|err] w1] eqn:E;
      [discriminate|].
    destruct (attemptDownload_observed cfg env _ _ _ _ _ _ E) as (Hs & Hu & Ha & Hb).
    pose proof (attemptDownload_table cfg env url key client w) as Ht.
    rewrite E in Ht. simpl in Ht.
    destruct (IH _ H) as (Hs' & Hu' & Ha' & Hb' & Ht').
    unfold spawn_identities, uploads_done, attributed in *.
    unfold warned in *. cbn [w_trace w_bucket w_table set_trace] in *.
    rewrite omap_app in Hs'. rewrite omap_app in Hu'. rewrite omap_app in Ha'.
    simpl in Hs', Hu', Ha'.
    rewrite app_nil_r in Hs', Hu', Ha'.
    rewrite Hs', Hu', Ha', Hb', Ht', Hs, Hu, Ha, (Hb err eq_refl), Ht.
    rewrite !app_nil_r, <- app_assoc. auto.
Qed.

Lemma strict_prefix_not_last pre client rest :
  clientStrategies = (pre ++ client :: rest)%list -> "android_creator" ∉ pre.
Proof.
  unfold clientStrategies. intros H Hin.
  destruct pre as [|a [|b [|c [|d pre]]]]; simplify_eq/=.
  all: repeat match goal with
           | H : _ ∈ [] |- _ => inversion H
           | H : _ ∈ _ :: _ |- _ => inversion H; subst; clear H; try discriminate
           end.
  all: destruct pre; discriminate.
Qed.

(** When every strategy fails in turn, [downloadToS3] throws what the last
    attempt threw. *)
Lemma fail_in_turn_all url key w w' :
  fail_in_turn cfg env url key clientStrategies w = Some w' ->
  exists err, downloadToS3 cfg env url key w = (Thrown err, w').
Proof.
  unfold clientStrategies, downloadToS3, clientStrategies. cbn [fail_in_turn]. intros H.
  destruct (attemptDownload cfg env url key "ios" w) as [[[]|e1] w1] eqn:E1;
    [discriminate|].
  destruct (attemptDownload cfg env url key "ios,web" _) as [[[]|e2] w2] eqn:E2;
    [discriminate|].
  destruct (attemptDownload cfg env url key "web" _) as [[[]|e3] w3] eqn:E3;
    [discriminate|].
  destruct (attemptDownload cfg env url key "android_creator" _) as [[[]|e4] w4] eqn:E4;
    [discriminate|].
  exists e4. simplify_eq.
  rewrite (downloadToS3_from_next _ _ _ _ _ _ _ E1) by discriminate.
  rewrite (downloadToS3_from_next _ _ _ _ _ _ _ E2) by discriminate.
  rewrite (downloadToS3_from_next _ _ _ _ _ _ _ E3) by discriminate.
  apply (downloadToS3_from_last _ _ _ _ _ _ E4).
Qed.

End Loop.

(** ** The handler's steps *)

Section Steps.

Variable cfg : Config.
Variable env : Env.

Lemma log_run name data w :
  log env name data w
  = (Normal tt,
     mkWorld (S (w_tick w)) (w_fs w) (w_bucket w) (w_table w)
       (w_trace w ++ [EvLog name (env_now env (w_tick w)) data])%list).
Proof. reflexivity. Qed.

Lemma recordMetric_run name value unit_ w :
  recordMetric env name value unit_ w
  = match env_metric env (w_tick w) with
    | None =>
        (Normal tt,
         mkWorld (S (w_tick w)) (w_fs w) (w_bucket w) (w_table w)
           (w_trace w ++ [EvMetric name value unit_])%list)
    | Some e => (Thrown e, set_tick (S (w_tick w)) w)
    end.
Proof.
  unfold recordMetric, bind, ask. destruct (env_metric env (w_tick w)); reflexivity.
Qed.

Lemma onError_run record videoId err w :
  env_metric env (w_tick w) = None ->
  onError env record videoId err w
  = (Normal Continue,
     mkWorld (S (S (w_tick w))) (w_fs w) (w_bucket w) (w_table w)
       (w_trace w
        ++ [EvMetric "DownloadFailures" 1 "Count";
            EvLog "DownloadError" (env_now env (S (w_tick w)))
                  (error_data record videoId err)])%list).
Proof.
  intros H. unfold onError. unfold bind at 1. rewrite recordMetric_run, H.
  unfold bind at 1. rewrite log_run. cbn. rewrite <- app_assoc. reflexivity.
Qed.

Lemma ddb_request_run w :
  ddb_request env w
  = match env_ddb_fault env (w_tick w) with
    | Some e => (Thrown e, set_tick (S (w_tick w)) w)
    | None =>
        (Normal tt,
         mkWorld (S (w_tick w)) (w_fs w) (w_bucket w) (table_seen env w) (w_trace w))
    end.
Proof.
  unfold ddb_request, bind, ask. simpl.
  destruct (env_ddb_fault env (w_tick w)); reflexivity.
Qed.

Lemma GetCommand_run id w :
  GetCommand cfg env (JStr id) w
  = match env_ddb_fault env (w_tick w) with
    | Some e =>
        (Thrown e,
         mkWorld (S (w_tick w)) (w_fs w) (w_bucket w) (w_table w)
           (w_trace w ++ [EvDdbGet (TABLE_NAME cfg) (JStr id)])%list)
    | None =>
        (Normal (table_seen env w !! id),
         mkWorld (S (w_tick w)) (w_fs w) (w_bucket w) (table_seen env w)
           (w_trace w ++ [EvDdbGet (TABLE_NAME cfg) (JStr id)])%list)
    end.
Proof.
  unfold GetCommand. unfold bind at 1, emit. unfold bind at 1.
  rewrite ddb_request_run. cbn [w_tick set_trace].
  destruct (env_ddb_fault env (w_tick w)); reflexivity.
Qed.

(** [GetCommand] only answers for a string key. *)
Lemma GetCommand_string videoId w existing w' :
  GetCommand cfg env videoId w = (Normal existing, w') ->
  exists id, videoId = JStr id.
Proof.
  destruct videoId; eauto; unfold GetCommand, bind, emit, throw;
    intros H; repeat case_match; simplify_eq.
Qed.

Lemma PutCommand_run item w :
  PutCommand_if_absent cfg env item w
  = match env_ddb_fault env (w_tick w) with
    | Some e =>
        (Thrown e,
         mkWorld (S (w_tick w)) (w_fs w) (w_bucket w) (w_table w)
           (w_trace w ++ [EvDdbPut (TABLE_NAME cfg) item])%list)
    | None =>
        match table_seen env w !! it_videoId item with
        | Some _ =>
            (Thrown ConditionalCheckFailedException,
             mkWorld (S (w_tick w)) (w_fs w) (w_bucket w) (table_seen env w)
               (w_trace w ++ [EvDdbPut (TABLE_NAME cfg) item])%list)
        | None =>
            (Normal tt,
             mkWorld (S (w_tick w)) (w_fs w) (w_bucket w)
               (<[it_videoId item := item]> (table_seen env w))
               (w_trace w ++ [EvDdbPut (TABLE_NAME cfg) item])%list)
        end
    end.
Proof.
  unfold PutCommand_if_absent. unfold bind at 1, emit. unfold bind at 1.
  rewrite ddb_request_run. unfold table_seen.
  cbn [w_tick w_fs w_bucket w_table w_trace set_trace].
  destruct (env_ddb_fault env (w_tick w)); [reflexivity|].
  unfold bind. cbn [w_table].
  destruct ((w_table w ∪ env_ddb_others env (w_tick w)) !! it_videoId item);
    reflexivity.
Qed.

Lemma get_prop_object v k s : get_prop v k = JStr s -> truthy v = true.
Proof. destruct v; simpl; intros; congruence. Qed.

Lemma truthy_nonempty s : s <> "" -> truthy (JStr s) = true.
Proof.
  intros H. simpl. destruct (String.eqb_spec s ""); [contradiction|reflexivity].
Qed.

(** A message with a usable [videoId] goes through the [try] block. *)
Lemma processRecord_valid record parsed id w :
  body_json record = Some parsed ->
  get_prop parsed "videoId" = JStr id ->
  id <> "" ->
  processRecord cfg env record w
  = try_catch (processVideo cfg env (JStr id) (get_prop parsed "title"))
              (onError env record (JStr id)) w.
Proof.
  intros Hb Hv Hid. unfold processRecord. rewrite Hb, Hv.
  rewrite (get_prop_object _ _ _ Hv), (truthy_nonempty _ Hid). reflexivity.
Qed.

(** A message without a usable [videoId] leaves the handler. *)
Lemma processRecord_invalid record parsed w :
  body_json record = Some parsed ->
  truthy (get_prop parsed "videoId") = false ->
  processRecord cfg env record w
  = (Normal Return,
     mkWorld (S (w_tick w)) (w_fs w) (w_bucket w) (w_table w)
       (w_trace w
        ++ [EvLog "InvalidMessage" (env_now env (w_tick w))
              [("recordId", JStr (messageId record)); ("body", JStr (body record))]])%list).
Proof.
  intros Hb Hv. unfold processRecord. rewrite Hb, Hv.
  rewrite orb_true_r. reflexivity.
Qed.

End Steps.

(** * The claims *)

Lemma Qltb_lt x y : Qltb x y = true <-> (x < y)%Q.
Proof.
  unfold Qltb. rewrite Qlt_alt. destruct (x ?= y)%Q; split; congruence.
Qed.

Lemma Qltb_ge x y : (y <= x)%Q -> Qltb x y = false.
Proof.
  intros H. destruct (Qltb x y) eqn:E; [|reflexivity].
  apply Qltb_lt in E. exfalso. exact (Qle_not_lt _ _ H E).
Qed.

(** Run the monadic code as far as the known answers allow. *)
Ltac exec :=
  unfold bind, ret, throw, try_catch, try_finally, emit, ask,
    fs_existsSync, fs_statSync, fs_unlinkSync, fs_renameSync, fs_chmodSync, fs_put;
  cbn [fst snd w_tick w_fs w_bucket w_table w_trace
       set_tick set_fs set_bucket set_table set_trace].

Tactic Notation "exec" "in" hyp(H) :=
  unfold bind, ret, throw, try_catch, try_finally, emit, ask,
    fs_existsSync, fs_statSync, fs_unlinkSync, fs_renameSync, fs_chmodSync, fs_put in H;
  cbn [fst snd w_tick w_fs w_bucket w_table w_trace
       set_tick set_fs set_bucket set_table set_trace] in H.

Section Claims.

Variable cfg : Config.
Variable env : Env.


(** C8.  However one download attempt ends (success, rejected child, missing
    or empty output, failed upload), the temporary file that the attempt
    named and handed to the child as its [-o] path does not exist
    afterwards. *)
Theorem temp_file_removed (url key client : string) (w : World) :
  arg_after "-o" (attempt_args cfg env url client w)
    = Some (attempt_tempFile cfg env w) /\
  w_fs (snd (attemptDownload cfg env url key client w))
    !! attempt_tempFile cfg env w = None.
Proof.
  split; [reflexivity|].
  rewrite attemptDownload_run.
  repeat case_match; cbn [snd w_fs]; apply lookup_delete_eq.
Qed.

(** C6.  With the cookie configured and a cached copy on disk: when the age
    of the copy is strictly below the configured maximum, the refresh reads
    nothing from the bucket and leaves the disk alone; when the age has
    reached the maximum, it reads the authoritative copy exactly once. *)
Theorem cookie_cache_freshness (w : World) (cached : File) (maxAge : Z) :
  COOKIE_S3_KEY cfg <> "" ->
  BUCKET_NAME cfg <> "" ->
  COOKIE_MAX_AGE_HOURS cfg = Some maxAge ->
  w_fs w !! COOKIE_LOCAL_PATH = Some cached ->
  let age := ageHours (env_now env (w_tick w)) (f_mtime cached) in
  let w' := snd (ensureCookieFileIfConfigured cfg env w) in
  ((age < inject_Z maxAge)%Q ->
     s3_reads (w_trace w') = s3_reads (w_trace w) /\ w_fs w' = w_fs w) /\
  ((inject_Z maxAge <= age)%Q ->
     s3_reads (w_trace w')
     = (s3_reads (w_trace w) ++ [(BUCKET_NAME cfg, COOKIE_S3_KEY cfg)])%list).
Proof.
  intros Hk Hb Hmax Hfile age w'.
  assert (String.eqb (COOKIE_S3_KEY cfg) "" || String.eqb (BUCKET_NAME cfg) "" = false)
    as Hconf.
  { apply orb_false_intro; apply String.eqb_neq; assumption. }
  subst w'. unfold ensureCookieFileIfConfigured. rewrite Hconf.
  unfold Date_now, console, cookie_is_fresh. rewrite Hmax. exec.
  rewrite bool_decide_true by (rewrite Hfile; eauto). exec.
  rewrite Hfile. exec. fold age.
  split; intros Hage.
  - apply Qltb_lt in Hage. rewrite Hage. exec.
    unfold s3_reads. rewrite omap_app. cbn. rewrite app_nil_r. split; reflexivity.
  - rewrite (Qltb_ge _ _ Hage).
    unfold s3_GetObject, pipeline_to_file. exec.
    unfold s3_reads.
    repeat (case_match; simplify_eq/=);
      rewrite ?omap_app; cbn; rewrite ?app_nil_r; reflexivity.
Qed.

End Claims.

Section Claims2.

Variable cfg : Config.
Variable env : Env.

Lemma child_rejection_nonzero code :
  code <> 0 ->
  child_rejection (Closed (Some code))
  = Some (Error ("yt-dlp exited with code " +:+ pretty code)).
Proof. destruct code; [congruence|reflexivity|reflexivity]. Qed.

(** C7.  An attempt whose child exits with code 0 and leaves a zero-byte
    output file fails exactly as it would had the child exited with a
    non-zero code: it throws, the failure banner names the strategy, the
    temporary file is deleted, no upload is started, and the two runs leave
    the same world but for the error text; the strategy loop then goes on
    with the next strategy, or rethrows after the last one. *)
Theorem empty_output_is_failure (url key client : string) (w : World)
    (out : File) (code : Z) :
  sp_end (attempt_child cfg env url client w) = Closed (Some 0) ->
  attempt_disk cfg env url client w !! attempt_tempFile cfg env w = Some out ->
  f_size out = 0 ->
  code <> 0 ->
  let base := attempt_trace cfg env url client w in
  let start := attempt_start cfg env w in
  let left (msg : string) : World :=
    mkWorld (S (S (w_tick start)))
      (delete (attempt_tempFile cfg env w) (attempt_disk cfg env url client w))
      (w_bucket start) (w_table start)
      (base ++ [EvAttemptFailed url client key msg])%list in
  let empty := Error "Downloaded file is empty" in
  let nonzero := Error ("yt-dlp exited with code " +:+ pretty code) in
  attemptDownload cfg env url key client w
    = (Thrown empty, left (err_message empty)) /\
  attemptDownload cfg (exits_with code env) url key client w
    = (Thrown nonzero, left (err_message nonzero)) /\
  w_fs (left (err_message empty)) !! attempt_tempFile cfg env w = None /\
  uploads_issued (w_trace (left (err_message empty))) = uploads_issued (w_trace w) /\
  w_bucket (left (err_message empty)) = w_bucket w /\
  (forall rest,
     client <> "android_creator" ->
     downloadToS3_from cfg env url key (client :: rest) w
     = downloadToS3_from cfg env url key rest
         (warned client empty (left (err_message empty)))) /\
  (forall rest,
     client = "android_creator" ->
     downloadToS3_from cfg env url key (client :: rest) w
     = (Thrown empty, warned client empty (left (err_message empty)))).
Proof.
  intros Hend Hout Hsize Hcode base start left empty nonzero.
  assert (attemptDownload cfg env url key client w
          = (Thrown empty, left (err_message empty))) as Hempty.
  { rewrite attemptDownload_run, Hend. cbn [child_rejection].
    rewrite Hout, Hsize. reflexivity. }
  split; [exact Hempty|].
  split.
  { rewrite attemptDownload_run.
    change (attempt_child cfg (exits_with code env) url client w)
      with (mkSpawn (sp_stderr (attempt_child cfg env url client w))
                    (sp_output (attempt_child cfg env url client w))
                    (Closed (Some code))).
    cbn [sp_end]. rewrite (child_rejection_nonzero code Hcode). reflexivity. }
  split; [apply lookup_delete_eq|].
  split.
  { cbn [left w_trace]. unfold uploads_issued. rewrite omap_app.
    unfold base. rewrite (omap_attempt_trace cfg env see_upload url client w see_upload_cookie).
    cbn. rewrite !app_nil_r. reflexivity. }
  split; [apply (ensureCookie_bucket cfg env w)|].
  split.
  - intros rest Hne. apply (downloadToS3_from_next cfg env _ _ _ _ _ _ _ Hempty Hne).
  - intros rest ->. apply (downloadToS3_from_last cfg env _ _ _ _ _ _ Hempty).
Qed.

(** C4.  The four client strategies are tried in their fixed order, one
    child per attempt, and the first that succeeds ends the loop: when the
    strategies before [client] fail in turn and [client] succeeds, the fetch
    returns, the children spawned are those of the strategies up to
    [client], in order, none of the later ones, and exactly one upload
    completes, attributed to [client] by the success banner. *)
Theorem first_success_ends_loop (url key : string) (before : list string)
    (client : string) (later : list string) (w w1 w2 : World) :
  clientStrategies = (before ++ client :: later)%list ->
  fail_in_turn cfg env url key before w = Some w1 ->
  attemptDownload cfg env url key client w1 = (Normal tt, w2) ->
  clientStrategies = ["ios"; "ios,web"; "web"; "android_creator"] /\
  downloadToS3 cfg env url key w = (Normal tt, w2) /\
  spawn_identities (w_trace w2)
    = (spawn_identities (w_trace w)
       ++ map identity_of (before ++ [client]))%list /\
  uploads_done (w_trace w2) = (uploads_done (w_trace w) ++ [key])%list /\
  attributed (w_trace w2) = (attributed (w_trace w) ++ [(key, client)])%list.
Proof.
  intros Hsplit Hfail Hok.
  split; [reflexivity|].
  split.
  { unfold downloadToS3. rewrite Hsplit.
    rewrite (fail_in_turn_prefix cfg env _ _ _ _ _ _ Hfail
               (strict_prefix_not_last _ _ _ Hsplit)).
    apply downloadToS3_from_ok. assumption. }
  destruct (fail_in_turn_observed cfg env _ _ _ _ _ Hfail) as (Hs & Hu & Ha & _).
  destruct (attemptDownload_observed cfg env _ _ _ _ _ _ Hok) as (Hs' & Hu' & Ha' & _).
  rewrite Hs', Hu', Ha', Hs, Hu, Ha, map_app, app_assoc. auto.
Qed.

End Claims2.

Section Claims3.

Variable cfg : Config.
Variable env : Env.


(** C3.  Once a run of the handler on a message has left a row for its id
    in the table, a second run on the same message spawns no child, starts
    no upload and asks for no insert, whatever else happens; the row is the
    one the first run left.  When the lookup is answered, the second run is
    the fast path: batch start, the lookup, the skip line, batch complete. *)
Theorem second_run_skips (record : SQSRecord) (parsed : JSValue) (id : string)
    (w0 w1 : World) (r1 : Completion unit) (row : Item) :
  body_json record = Some parsed ->
  get_prop parsed "videoId" = JStr id ->
  id <> "" ->
  handler cfg env [record] w0 = (r1, w1) ->
  w_table w1 !! id = Some row ->
  let second := handler cfg env [record] w1 in
  spawn_identities (w_trace (snd second)) = spawn_identities (w_trace w1) /\
  uploads_issued (w_trace (snd second)) = uploads_issued (w_trace w1) /\
  puts (w_trace (snd second)) = puts (w_trace w1) /\
  w_table (snd second) !! id = Some row /\
  (env_ddb_fault env (S (w_tick w1)) = None ->
   second
   = (Normal tt,
      mkWorld (S (S (S (w_tick w1)))) (w_fs w1) (w_bucket w1)
        (w_table w1 ∪ env_ddb_others env (S (w_tick w1)))
        (w_trace w1
         ++ [EvLog "BatchStart" (env_now env (w_tick w1))
               [("recordCount", JNum (inject_Z 1))];
             EvDdbGet (TABLE_NAME cfg) (JStr id);
             EvConsole LvLog ("Skipping already downloaded video: " +:+ id);
             EvLog "BatchComplete" (env_now env (S (S (w_tick w1)))) []])%list)).
Proof.
  intros Hbody Hid Hne _ Hrow second.
  assert ((w_table w1 ∪ env_ddb_others env (S (w_tick w1))) !! id = Some row) as Hseen.
  { apply lookup_union_Some_l. assumption. }
  pose proof (eq_refl second) as Hsec. unfold second at 2 in Hsec. clearbody second.
  unfold handler in Hsec. unfold bind at 1 in Hsec. rewrite log_run in Hsec.
  unfold bind at 1 in Hsec. cbn [handler_from] in Hsec. unfold bind at 1 in Hsec.
  rewrite (processRecord_valid cfg env _ _ _ _ Hbody Hid Hne) in Hsec.
  unfold try_catch, processVideo in Hsec. unfold bind at 1 in Hsec.
  rewrite GetCommand_run in Hsec. unfold table_seen in Hsec.
  cbn [w_tick w_table] in Hsec.
  unfold spawn_identities, uploads_issued, puts.
  destruct (env_ddb_fault env (S (w_tick w1))) as [e|] eqn:Hfault.
  - unfold onError, recordMetric, log, Date_now in Hsec. exec in Hsec.
    destruct (env_metric env (S (S (w_tick w1)))) as [e'|];
      exec in Hsec; subst second; cbn; rewrite !omap_app; cbn; rewrite !app_nil_r;
      (repeat split; try assumption; intros; discriminate).
  - rewrite Hseen in Hsec. unfold console, log, Date_now in Hsec. exec in Hsec.
    subst second. cbn. rewrite !omap_app. cbn. rewrite !app_nil_r.
    repeat split; try assumption.
    intros _. rewrite <- !app_assoc. reflexivity.
Qed.

End Claims3.

Section Claims4.

Variable cfg : Config.
Variable env : Env.

(** An answered lookup that finds nothing: what it leaves. *)
Lemma GetCommand_absent id w w1 :
  GetCommand cfg env (JStr id) w = (Normal None, w1) ->
  table_seen env w !! id = None /\
  w1 = mkWorld (S (w_tick w)) (w_fs w) (w_bucket w) (table_seen env w)
         (w_trace w ++ [EvDdbGet (TABLE_NAME cfg) (JStr id)])%list.
Proof.
  rewrite GetCommand_run.
  destruct (env_ddb_fault env (w_tick w)); intros H; simplify_eq. auto.
Qed.

(** The [try] block up to the end of the fetch, for a message with string
    id and title whose lookup found nothing. *)
Lemma processVideo_fetch id title w w1 :
  GetCommand cfg env (JStr id) w = (Normal None, w1) ->
  processVideo cfg env (JStr id) (JStr title) w
  = (let s3Key := s3KeyOf (sanitize title) id in
     downloadToS3 cfg env (watchUrl id) s3Key ;;
     let* downloadedAt := Date_now env in
     PutCommand_if_absent cfg env
       (mkItem id title s3Key (BUCKET_NAME cfg) downloadedAt) ;;
     let* finish := Date_now env in
     let duration := Qmake (finish - env_now env (w_tick w1)) 1000 in
     recordMetric env "VideosDownloaded" 1 "Count" ;;
     recordMetric env "DownloadDuration" duration "Seconds" ;;
     log env "DownloadSuccess"
         [ ("videoId", JStr id);
           ("duration", JNum duration);
           ("s3Key", JStr s3Key);
           ("bucket", JStr (BUCKET_NAME cfg)) ] ;;
     ret Continue) (set_tick (S (w_tick w1)) w1).
Proof.
  intros H. unfold processVideo. unfold bind at 1. rewrite H.
  unfold bind at 1, Date_now at 1, ask. unfold bind at 1, safeTitleOf, ret at 1.
  reflexivity.
Qed.




(** A message without a usable [videoId] ends the whole batch: the handler
    returns after logging it, whatever messages follow. *)
Lemma invalid_message_returns (record : SQSRecord) (parsed : JSValue)
    (rest : list SQSRecord) (w : World) :
  body_json record = Some parsed ->
  truthy (get_prop parsed "videoId") = false ->
  handler cfg env (record :: rest) w
  = (Normal tt,
     mkWorld (S (S (w_tick w))) (w_fs w) (w_bucket w) (w_table w)
       (w_trace w
        ++ [EvLog "BatchStart" (env_now env (w_tick w))
              [("recordCount", JNum (inject_Z (Z.of_nat (length (record :: rest)))))];
            EvLog "InvalidMessage" (env_now env (S (w_tick w)))
              [("recordId", JStr (messageId record));
               ("body", JStr (body record))]])%list).
Proof.
  intros Hbody Hid. unfold handler. unfold bind at 1. rewrite log_run.
  unfold bind at 1. cbn [handler_from]. unfold bind at 1.
  rewrite (processRecord_invalid cfg env _ _ _ Hbody Hid).
  cbn. rewrite <- app_assoc. reflexivity.
Qed.

End Claims4.

(** * The claims on the sample inputs *)

Section Closed.

Import Sample.


Lemma cookie_cache_freshness_witness :
  s3_reads (w_trace (snd (ensureCookieFileIfConfigured cfg env_cookie cached_fresh)))
    = [] /\
  s3_reads (w_trace (snd (ensureCookieFileIfConfigured cfg env_cookie cached_stale)))
    = [("videos-bucket", "secrets/cookies.txt")].
Proof.
  split.
  - refine (proj1 (proj1 (cookie_cache_freshness cfg env_cookie cached_fresh
                            (mkFile 2048 (clock 0 - 167 * hour) 384) 168 _ _ _ _) _)).
    + discriminate.
    + discriminate.
    + reflexivity.
    + reflexivity.
    + vm_compute. reflexivity.
  - refine (proj2 (cookie_cache_freshness cfg env_cookie cached_stale
                     (mkFile 2048 (clock 0 - 169 * hour) 384) 168 _ _ _ _) _).
    + discriminate.
    + discriminate.
    + reflexivity.
    + reflexivity.
    + vm_compute. discriminate.
Defined.

Lemma empty_output_is_failure_witness :
  fst (attemptDownload cfg env_empty video_url video_key "ios" fresh_world)
    = Thrown (Error "Downloaded file is empty") /\
  fst (attemptDownload cfg (exits_with 1 env_empty) video_url video_key "ios" fresh_world)
    = Thrown (Error "yt-dlp exited with code 1") /\
  uploads_issued
    (w_trace (snd (attemptDownload cfg env_empty video_url video_key "ios" fresh_world)))
    = [].
Proof.
  destruct (empty_output_is_failure cfg env_empty video_url video_key "ios"
              fresh_world (mkFile 0 0 420) 1)
    as (Hempty & Hnonzero & _ & Hissued & _).
  - reflexivity.
  - vm_compute. reflexivity.
  - reflexivity.
  - discriminate.
  - rewrite Hempty, Hnonzero. cbn [fst snd]. rewrite Hissued.
    repeat split; reflexivity.
Defined.


Lemma first_success_ends_loop_witness :
  downloadToS3 cfg env_fallback video_url video_key fresh_world
    = (Normal tt, fallback_done) /\
  spawn_identities (w_trace fallback_done)
    = [ "youtube:player_client=ios"; "youtube:player_client=ios,web";
        "youtube:player_client=web"; "youtube:player_client=android_creator" ] /\
  uploads_done (w_trace fallback_done) = [video_key] /\
  attributed (w_trace fallback_done) = [(video_key, "android_creator")].
Proof.
  destruct (first_success_ends_loop cfg env_fallback video_url video_key
              ["ios"; "ios,web"; "web"] "android_creator" [] fresh_world after_three
              fallback_done)
    as (_ & Hrun & Hspawn & Hdone & Hattr).
  - reflexivity.
  - vm_compute. reflexivity.
  - vm_compute. reflexivity.
  - exact (conj Hrun (conj Hspawn (conj Hdone Hattr))).
Defined.



Lemma second_run_skips_witness :
  let second := handler cfg env_ok [video_msg] (snd first_run) in
  logged (w_trace (snd first_run)) = ["BatchStart"; "DownloadSuccess"; "BatchComplete"] /\
  spawn_identities (w_trace (snd second)) = spawn_identities (w_trace (snd first_run)) /\
  spawn_identities (w_trace (snd second)) = ["youtube:player_client=ios"] /\
  puts (w_trace (snd second)) = puts (w_trace (snd first_run)) /\
  fst second = Normal tt /\
  logged (w_trace (snd second))
    = ["BatchStart"; "DownloadSuccess"; "BatchComplete"; "BatchStart"; "BatchComplete"].
Proof.
  destruct (second_run_skips cfg env_ok video_msg video_json video_id fresh_world
              (snd first_run) (fst first_run)
              (mkItem video_id "Never Gonna: Give/You Up!" video_key "videos-bucket"
                      (clock 7)))
    as (Hspawn & _ & Hputs & _ & Hfast).
  - reflexivity.
  - reflexivity.
  - discriminate.
  - vm_compute. reflexivity.
  - vm_compute. reflexivity.
  - cbv zeta. rewrite Hspawn, Hputs, (Hfast eq_refl). cbn [fst snd w_trace].
    unfold logged. rewrite omap_app.
    repeat split; vm_compute; reflexivity.
Defined.









(** C2 on the code, at a batch of two: the message without [videoId] is
    logged and the handler returns; the message behind it is never looked
    at, and the batch is not logged as complete.  The same message in front
    is processed. *)
Theorem invalid_message_ends_batch :
  let run := handler cfg env_ok [no_id_msg; video_msg] fresh_world in
  fst run = Normal tt /\
  logged (w_trace (snd run)) = ["BatchStart"; "InvalidMessage"] /\
  length (w_trace (snd run)) = 2%nat /\
  w_table (snd run) !! video_id = None /\
  logged (w_trace (snd (handler cfg env_ok [video_msg; no_id_msg] fresh_world)))
    = ["BatchStart"; "DownloadSuccess"; "InvalidMessage"].
Proof.
  cbv zeta. rewrite (invalid_message_returns cfg env_ok no_id_msg (JObj []) [video_msg]
                       fresh_world eq_refl eq_refl).
  vm_compute. repeat split; reflexivity.
Qed.

End Closed.

(** * Further properties of the code *)

(** ** The cookie cache *)

Section CookieCache.

Variable cfg : Config.
Variable env : Env.

(** X1.  The cookie refresh never throws, whatever the bucket answers; it
    touches no file but its two cookie paths, leaves no temporary file
    behind, either keeps the cached copy as it was or replaces it by a file
    with owner-only mode, and reads the bucket at most once. *)
Theorem cookie_refresh_degrades (w : World) :
  let w' := snd (ensureCookieFileIfConfigured cfg env w) in
  fst (ensureCookieFileIfConfigured cfg env w) = Normal tt /\
  (w_fs w !! COOKIE_TMP_PATH = None -> w_fs w' !! COOKIE_TMP_PATH = None) /\
  (forall path,
     path <> COOKIE_LOCAL_PATH -> path <> COOKIE_TMP_PATH ->
     w_fs w' !! path = w_fs w !! path) /\
  (w_fs w' !! COOKIE_LOCAL_PATH = w_fs w !! COOKIE_LOCAL_PATH \/
   exists size mtime,
     w_fs w' !! COOKIE_LOCAL_PATH = Some (mkFile size mtime 384)) /\
  exists reads,
    s3_reads (w_trace w') = (s3_reads (w_trace w) ++ reads)%list /\
    (length reads <= 1)%nat.
Proof.
  intros w'. split; [apply ensureCookie_normal|].
  subst w'.
  unfold ensureCookieFileIfConfigured, s3_GetObject, pipeline_to_file, console,
    Date_now, s3_reads.
  exec.
  repeat (case_match; simplify_eq/=).
  all: rewrite ?omap_app; cbn; rewrite ?app_nil_r.
  all: (split; [intros; simplify_map_eq; done|]).
  all: (split; [intros; simplify_map_eq; done|]).
  all: (split; [first [left; simplify_map_eq; done | right; simplify_map_eq; eauto]|]).
  all: first [ exists []; rewrite app_nil_r; split; [reflexivity|simpl; lia]
             | eexists [_]; split; [reflexivity|simpl; lia] ].
Qed.

End CookieCache.

Section CookieCache2.

Variable cfg : Config.
Variable env : Env.

Lemma configured_test :
  COOKIE_S3_KEY cfg <> "" -> BUCKET_NAME cfg <> "" ->
  String.eqb (COOKIE_S3_KEY cfg) "" || String.eqb (BUCKET_NAME cfg) "" = false.
Proof. intros. apply orb_false_intro; apply String.eqb_neq; assumption. Qed.

(** X2.  When a stale cached copy is on disk and its refresh fails (the
    read is rejected, or the body breaks off), the stale copy stays where it
    is and no temporary file is left; the download attempt that asked for
    the refresh still hands the stale file to yt-dlp with [--cookies]. *)
Theorem failed_refresh_keeps_stale_cookie (w : World) (cached : File)
    (url client : string) :
  COOKIE_S3_KEY cfg <> "" ->
  BUCKET_NAME cfg <> "" ->
  w_fs w !! COOKIE_LOCAL_PATH = Some cached ->
  cookie_is_fresh cfg (ageHours (env_now env (w_tick w)) (f_mtime cached)) = false ->
  s3_failed (env_s3get env (S (w_tick w))) = true ->
  let w' := snd (ensureCookieFileIfConfigured cfg env w) in
  w_fs w' !! COOKIE_LOCAL_PATH = Some cached /\
  w_fs w' !! COOKIE_TMP_PATH = None /\
  s3_reads (w_trace w')
    = (s3_reads (w_trace w) ++ [(BUCKET_NAME cfg, COOKIE_S3_KEY cfg)])%list /\
  arg_after "--cookies" (attempt_args cfg env url client w) = Some COOKIE_LOCAL_PATH.
Proof.
  intros Hk Hb Hfile Hstale Hfail w'.
  assert (w_fs w' !! COOKIE_LOCAL_PATH = Some cached /\
          w_fs w' !! COOKIE_TMP_PATH = None /\
          s3_reads (w_trace w')
          = (s3_reads (w_trace w) ++ [(BUCKET_NAME cfg, COOKIE_S3_KEY cfg)])%list)
    as (Hlocal & Htmp & Hreads).
  { subst w'. unfold ensureCookieFileIfConfigured.
    rewrite (configured_test Hk Hb).
    unfold Date_now, console. exec.
    rewrite bool_decide_true by (rewrite Hfile; eauto). exec.
    rewrite Hfile. exec. rewrite Hstale.
    unfold s3_GetObject, pipeline_to_file, s3_reads. exec.
    destruct (env_s3get env (S (w_tick w))) as [e|size mtime|[size|] mtime e];
      try discriminate; cbn.
    all: repeat (case_match; simplify_eq/=).
    all: rewrite ?omap_app; cbn; rewrite ?app_nil_r.
    all: repeat split; simplify_map_eq; try done.
    all: apply bool_decide_eq_false in H; apply eq_None_not_Some; exact H. }
  repeat split; try assumption.
  unfold attempt_args. fold w' in Hlocal.
  change (attempt_start cfg env w) with w'.
  rewrite bool_decide_true by (rewrite Hlocal; eauto).
  reflexivity.
Qed.

(** X3.  Refresh, then reuse: from a disk without a cached copy, a refresh
    whose body arrives in full installs it as the cached copy, with
    owner-only mode and no temporary file left; a second refresh while that
    copy is younger than the maximum age reads nothing, so the two calls
    read the bucket exactly once. *)
Theorem refreshed_cookie_is_reused (w : World) (maxAge size mtime : Z) :
  COOKIE_S3_KEY cfg <> "" ->
  BUCKET_NAME cfg <> "" ->
  COOKIE_MAX_AGE_HOURS cfg = Some maxAge ->
  w_fs w !! COOKIE_LOCAL_PATH = None ->
  env_s3get env (w_tick w) = S3Body size mtime ->
  (ageHours (env_now env (S (w_tick w))) mtime < inject_Z maxAge)%Q ->
  let w1 := snd (ensureCookieFileIfConfigured cfg env w) in
  let w2 := snd (ensureCookieFileIfConfigured cfg env w1) in
  w_fs w1 !! COOKIE_LOCAL_PATH = Some (mkFile size mtime 384) /\
  w_fs w1 !! COOKIE_TMP_PATH = None /\
  w_fs w2 = w_fs w1 /\
  s3_reads (w_trace w2)
    = (s3_reads (w_trace w) ++ [(BUCKET_NAME cfg, COOKIE_S3_KEY cfg)])%list.
Proof.
  intros Hk Hb Hmax Hnone Hbody Hage w1 w2.
  assert (w1 = mkWorld (S (w_tick w))
                 (<[COOKIE_LOCAL_PATH := mkFile size mtime 384]>
                    (<[COOKIE_LOCAL_PATH := mkFile size mtime 384]>
                       (delete COOKIE_TMP_PATH
                          (<[COOKIE_TMP_PATH := mkFile size mtime 384]> (w_fs w)))))
                 (w_bucket w) (w_table w)
                 (w_trace w ++ [EvS3Get (BUCKET_NAME cfg) (COOKIE_S3_KEY cfg)])%list)
    as Hw1.
  { subst w1. unfold ensureCookieFileIfConfigured.
    rewrite (configured_test Hk Hb).
    unfold Date_now, console. exec.
    rewrite bool_decide_false by (rewrite Hnone; intros [? ?]; discriminate). exec.
    unfold s3_GetObject, pipeline_to_file. exec. rewrite Hbody. exec.
    rewrite lookup_insert_eq. exec.
    rewrite lookup_insert_eq. reflexivity. }
  assert (w_fs w1 !! COOKIE_LOCAL_PATH = Some (mkFile size mtime 384)) as Hlocal.
  { rewrite Hw1. cbn [w_fs]. apply lookup_insert_eq. }
  assert (w_tick w1 = S (w_tick w)) as Htick by (rewrite Hw1; reflexivity).
  assert (w2 = set_trace
                 (w_trace w1 ++ [EvConsole LvLog "Using existing fresh cookie file"])%list
                 (set_tick (S (w_tick w1)) w1)) as Hw2.
  { subst w2. unfold ensureCookieFileIfConfigured.
    rewrite (configured_test Hk Hb).
    unfold Date_now, console, cookie_is_fresh. rewrite Hmax. exec.
    rewrite bool_decide_true by (rewrite Hlocal; eauto). exec.
    rewrite Hlocal. exec. cbn [f_mtime]. rewrite Htick.
    apply Qltb_lt in Hage. rewrite Hage. reflexivity. }
  split; [exact Hlocal|].
  split.
  { rewrite Hw1. cbn [w_fs]. simplify_map_eq. done. }
  split; [rewrite Hw2; reflexivity|].
  rewrite Hw2. cbn [w_trace set_trace set_tick]. unfold s3_reads.
  rewrite omap_app. cbn. rewrite app_nil_r.
  rewrite Hw1. cbn [w_trace]. rewrite omap_app. reflexivity.
Qed.

(** X4.  With the cookie configured, a call that finds no cached copy, or
    whose maximum age did not parse as a number, reads the authoritative
    copy exactly once: an unparsable [COOKIE_MAX_AGE_HOURS] turns the cache
    off. *)
Theorem no_cache_or_nan_reads_once (w : World) :
  COOKIE_S3_KEY cfg <> "" ->
  BUCKET_NAME cfg <> "" ->
  w_fs w !! COOKIE_LOCAL_PATH = None \/ COOKIE_MAX_AGE_HOURS cfg = None ->
  s3_reads (w_trace (snd (ensureCookieFileIfConfigured cfg env w)))
  = (s3_reads (w_trace w) ++ [(BUCKET_NAME cfg, COOKIE_S3_KEY cfg)])%list.
Proof.
  intros Hk Hb Hcase.
  unfold ensureCookieFileIfConfigured. rewrite (configured_test Hk Hb).
  unfold Date_now, console, cookie_is_fresh, s3_GetObject, pipeline_to_file, s3_reads.
  exec.
  destruct Hcase as [Hnone | Hnan].
  - rewrite bool_decide_false by (rewrite Hnone; intros [? ?]; discriminate). exec.
    repeat (case_match; simplify_eq/=);
      rewrite ?omap_app; cbn; rewrite ?app_nil_r; reflexivity.
  - rewrite Hnan.
    repeat (case_match; simplify_eq/=);
      rewrite ?omap_app; cbn; rewrite ?app_nil_r; reflexivity.
Qed.

End CookieCache2.

(** ** The fetch *)

Section Fetch.

Variable cfg : Config.
Variable env : Env.

(** When an attempt uploads, when it returns, and what it leaves in the
    bucket. *)
Lemma attempt_upload_guard (url key client : string) (w : World) :
  let run := attemptDownload cfg env url key client w in
  let ok :=
    extracted (attempt_child cfg env url client w)
              (attempt_disk cfg env url client w) (attempt_tempFile cfg env w) in
  let accepted :=
    env_upload env (S (S (w_tick (attempt_start cfg env w)))) key in
  uploads_issued (w_trace (snd run))
    = (uploads_issued (w_trace w) ++ if ok then [key] else [])%list /\
  (fst run = Normal tt <-> ok = true /\ accepted = None) /\
  (fst run = Normal tt ->
   exists out,
     attempt_disk cfg env url client w !! attempt_tempFile cfg env w = Some out /\
     w_bucket (snd run) = <[key := f_size out]> (w_bucket w)) /\
  (fst run <> Normal tt -> w_bucket (snd run) = w_bucket w).
Proof.
  intros run ok accepted. subst run ok accepted.
  rewrite attemptDownload_run. unfold extracted, uploads_issued.
  pose proof (omap_attempt_trace cfg env see_upload url client w see_upload_cookie) as Hu.
  simpl in Hu. rewrite app_nil_r in Hu.
  pose proof (ensureCookie_bucket cfg env w) as Hb.
  fold (attempt_start cfg env w) in Hb.
  destruct (child_rejection (sp_end (attempt_child cfg env url client w))) as [e|].
  { cbn. rewrite omap_app, Hu. cbn. rewrite !app_nil_r.
    repeat split; try congruence; intros; try discriminate; intuition discriminate. }
  destruct (attempt_disk cfg env url client w !! attempt_tempFile cfg env w) as [f|].
  2:{ cbn. rewrite omap_app, Hu. cbn. rewrite !app_nil_r.
      repeat split; try congruence; intros; try discriminate; intuition discriminate. }
  destruct (f_size f =? 0) eqn:Hsize.
  { cbn. rewrite omap_app, Hu. cbn. rewrite !app_nil_r.
    repeat split; try congruence; intros; try discriminate; intuition discriminate. }
  destruct (env_upload env (S (S (w_tick (attempt_start cfg env w)))) key) as [e|].
  { cbn. rewrite omap_app, Hu. cbn.
    repeat split; try congruence; intros; try discriminate; intuition discriminate. }
  cbn. rewrite omap_app, Hu. cbn.
  repeat split; try congruence; intros; try discriminate.
  exists f. rewrite Hb. auto.
Qed.

(** X5.  An attempt starts an upload exactly when its child has exited with
    code 0 and left a non-empty file; it returns normally exactly when, in
    addition, the upload is accepted, and then the bucket holds the file's
    size under the destination key; in every other case the bucket is as
    before. *)
Theorem upload_only_after_extraction (url key client : string) (w : World) :
  let run := attemptDownload cfg env url key client w in
  let ok :=
    extracted (attempt_child cfg env url client w)
              (attempt_disk cfg env url client w) (attempt_tempFile cfg env w) in
  let accepted :=
    env_upload env (S (S (w_tick (attempt_start cfg env w)))) key in
  uploads_issued (w_trace (snd run))
    = (uploads_issued (w_trace w) ++ if ok then [key] else [])%list /\
  (fst run = Normal tt <-> ok = true /\ accepted = None) /\
  (fst run = Normal tt ->
   exists out,
     attempt_disk cfg env url client w !! attempt_tempFile cfg env w = Some out /\
     w_bucket (snd run) = <[key := f_size out]> (w_bucket w)) /\
  (fst run <> Normal tt -> w_bucket (snd run) = w_bucket w).
Proof. apply attempt_upload_guard. Qed.

(** X6.  Every attempt spawns exactly one child: yt-dlp with the fixed
    format selector, the attempt's temporary file as output, its strategy as
    extractor argument and the video URL as last argument; the cookie file
    is passed with [--cookies] exactly when it is on disk after the
    refresh. *)
Theorem child_command_line (url key client : string) (w : World) :
  let args := attempt_args cfg env url client w in
  spawn_args (w_trace (snd (attemptDownload cfg env url key client w)))
    = (spawn_args (w_trace w) ++ [args])%list /\
  last args = Some url /\
  arg_after "-f" args = Some "worst[ext=mp4]/worstvideo+worstaudio/worst" /\
  arg_after "-o" args = Some (attempt_tempFile cfg env w) /\
  arg_after "--extractor-args" args = Some (identity_of client) /\
  (arg_after "--cookies" args = Some COOKIE_LOCAL_PATH <->
   is_Some (w_fs (attempt_start cfg env w) !! COOKIE_LOCAL_PATH)).
Proof.
  intros args. subst args.
  split.
  { assert (cookie_blind see_args) as Hblind by (intros []; exact I || reflexivity).
    pose proof (omap_attempt_trace cfg env see_args url client w Hblind) as Ha.
    simpl in Ha.
    rewrite attemptDownload_run. unfold spawn_args.
    repeat case_match; cbn [snd w_trace]; rewrite omap_app, Ha; cbn;
      rewrite ?app_nil_r; reflexivity. }
  unfold attempt_args.
  destruct (bool_decide (is_Some (w_fs (attempt_start cfg env w) !! COOKIE_LOCAL_PATH)))
    eqn:Hc.
  - apply bool_decide_eq_true in Hc.
    repeat split; try reflexivity; intros; assumption.
  - apply bool_decide_eq_false in Hc.
    repeat split; try reflexivity.
    + cbn. destruct (String.eqb url "--cookies"); intros; discriminate.
    + intros; contradiction.
Qed.

Lemma warned_observed client err w :
  spawn_identities (w_trace (warned client err w)) = spawn_identities (w_trace w) /\
  uploads_done (w_trace (warned client err w)) = uploads_done (w_trace w) /\
  attributed (w_trace (warned client err w)) = attributed (w_trace w) /\
  w_bucket (warned client err w) = w_bucket w.
Proof.
  unfold spawn_identities, uploads_done, attributed, warned. cbn [w_trace set_trace].
  rewrite !omap_app. cbn. rewrite !app_nil_r. auto.
Qed.

(** How a fetch ends: some strategy succeeds after those before it failed
    in turn, or all four fail in turn. *)
Lemma fetch_cases url key w :
  (exists before client later w1 w2,
     clientStrategies = (before ++ client :: later)%list /\
     fail_in_turn cfg env url key before w = Some w1 /\
     attemptDownload cfg env url key client w1 = (Normal tt, w2) /\
     downloadToS3 cfg env url key w = (Normal tt, w2)) \/
  (exists err w',
     fail_in_turn cfg env url key clientStrategies w = Some w' /\
     downloadToS3 cfg env url key w = (Thrown err, w')).
Proof.
  destruct (attemptDownload cfg env url key "ios" w) as [[[]|e1] w1] eqn:E1.
  { left. exists [], "ios", ["ios,web"; "web"; "android_creator"], w, w1.
    repeat split; try assumption. apply downloadToS3_from_ok. assumption. }
  destruct (attemptDownload cfg env url key "ios,web" (warned "ios" e1 w1))
    as [[[]|e2] w2] eqn:E2.
  { left. exists ["ios"], "ios,web", ["web"; "android_creator"], (warned "ios" e1 w1), w2.
    repeat split; try assumption.
    - cbn [fail_in_turn]. rewrite E1. reflexivity.
    - unfold downloadToS3, clientStrategies.
      rewrite (downloadToS3_from_next _ _ _ _ _ _ _ _ _ E1) by discriminate.
      apply downloadToS3_from_ok. assumption. }
  destruct (attemptDownload cfg env url key "web" (warned "ios,web" e2 w2))
    as [[[]|e3] w3] eqn:E3.
  { left. exists ["ios"; "ios,web"], "web", ["android_creator"],
      (warned "ios,web" e2 w2), w3.
    repeat split; try assumption.
    - cbn [fail_in_turn]. rewrite E1, E2. reflexivity.
    - unfold downloadToS3, clientStrategies.
      rewrite (downloadToS3_from_next _ _ _ _ _ _ _ _ _ E1) by discriminate.
      rewrite (downloadToS3_from_next _ _ _ _ _ _ _ _ _ E2) by discriminate.
      apply downloadToS3_from_ok. assumption. }
  destruct (attemptDownload cfg env url key "android_creator" (warned "web" e3 w3))
    as [[[]|e4] w4] eqn:E4.
  { left. exists ["ios"; "ios,web"; "web"], "android_creator", [],
      (warned "web" e3 w3), w4.
    repeat split; try assumption.
    - cbn [fail_in_turn]. rewrite E1, E2, E3. reflexivity.
    - unfold downloadToS3, clientStrategies.
      rewrite (downloadToS3_from_next _ _ _ _ _ _ _ _ _ E1) by discriminate.
      rewrite (downloadToS3_from_next _ _ _ _ _ _ _ _ _ E2) by discriminate.
      rewrite (downloadToS3_from_next _ _ _ _ _ _ _ _ _ E3) by discriminate.
      apply downloadToS3_from_ok. assumption. }
  right. exists e4, (warned "android_creator" e4 w4).
  assert (fail_in_turn cfg env url key clientStrategies w
          = Some (warned "android_creator" e4 w4)) as Hall.
  { unfold clientStrategies. cbn [fail_in_turn]. rewrite E1, E2, E3, E4. reflexivity. }
  split; [exact Hall|].
  destruct (fail_in_turn_all cfg env _ _ _ _ Hall) as [err Herr].
  unfold downloadToS3, clientStrategies in *.
  rewrite (downloadToS3_from_next _ _ _ _ _ _ _ _ _ E1) in * by discriminate.
  rewrite (downloadToS3_from_next _ _ _ _ _ _ _ _ _ E2) in * by discriminate.
  rewrite (downloadToS3_from_next _ _ _ _ _ _ _ _ _ E3) in * by discriminate.
  apply (downloadToS3_from_last _ _ _ _ _ _ _ _ E4).
Qed.

(** What a fetch has done when it ends. *)
Lemma fetch_outcome (url key : string) (w : World) :
  let run := downloadToS3 cfg env url key w in
  exists n : nat,
    (1 <= n <= 4)%nat /\
    spawn_identities (w_trace (snd run))
      = (spawn_identities (w_trace w)
         ++ map identity_of (take n clientStrategies))%list /\
    match fst run with
    | Normal _ =>
        uploads_done (w_trace (snd run)) = (uploads_done (w_trace w) ++ [key])%list /\
        (exists client,
           clientStrategies !! (n - 1)%nat = Some client /\
           attributed (w_trace (snd run))
           = (attributed (w_trace w) ++ [(key, client)])%list) /\
        is_Some (w_bucket (snd run) !! key)
    | Thrown _ =>
        n = 4%nat /\
        uploads_done (w_trace (snd run)) = uploads_done (w_trace w) /\
        attributed (w_trace (snd run)) = attributed (w_trace w) /\
        w_bucket (snd run) = w_bucket w
    end.
Proof.
  intros run. subst run.
  destruct (fetch_cases url key w)
    as [(before & client & later & w1 & w2 & Hsplit & Hfail & Hok & Hrun)
       |(err & w' & Hfail & Hrun)].
  - rewrite Hrun. cbn [fst snd].
    destruct (fail_in_turn_observed cfg env _ _ _ _ _ Hfail) as (Hs & Hu & Ha & Hb & _).
    destruct (attemptDownload_observed cfg env _ _ _ _ _ _ Hok) as (Hs' & Hu' & Ha' & _).
    destruct (attempt_upload_guard url key client w1) as (_ & _ & Hbucket & _).
    rewrite Hok in Hbucket. destruct (Hbucket eq_refl) as (out & _ & Hbk).
    cbn [snd] in Hbk.
    exists (S (length before)).
    assert (take (S (length before)) clientStrategies = (before ++ [client])%list) as Htake.
    { rewrite Hsplit.
      change (before ++ client :: later)%list with (before ++ [client] ++ later)%list.
      rewrite app_assoc.
      rewrite take_app_length'; [reflexivity|].
      rewrite length_app. simpl. lia. }
    assert (length before < 4)%nat as Hlen.
    { apply (f_equal length) in Hsplit. rewrite length_app in Hsplit.
      simpl in Hsplit. lia. }
    split; [lia|].
    split; [rewrite Htake, Hs', Hs, map_app, app_assoc; reflexivity|].
    split; [rewrite Hu', Hu; reflexivity|].
    split.
    + exists client. split.
      * rewrite Hsplit. replace (S (length before) - 1)%nat with (length before) by lia.
        rewrite lookup_app_r by lia. rewrite Nat.sub_diag. reflexivity.
      * rewrite Ha', Ha. reflexivity.
    + rewrite Hbk, lookup_insert_eq. eauto.
  - rewrite Hrun. cbn [fst snd].
    destruct (fail_in_turn_observed cfg env _ _ _ _ _ Hfail) as (Hs & Hu & Ha & Hb & _).
    exists 4%nat. split; [lia|].
    split; [rewrite Hs; reflexivity|].
    auto.
Qed.

(** X7.  Whatever the outside answers, a fetch spawns between one and four
    children, those of the first strategies in their fixed order.  When it
    returns, exactly one upload has completed, attributed to the last
    strategy tried, and the bucket holds the destination key.  When it
    throws, all four strategies have been tried, no upload has completed and
    the bucket is as before. *)
Theorem fetch_summary (url key : string) (w : World) :
  let run := downloadToS3 cfg env url key w in
  exists n : nat,
    (1 <= n <= 4)%nat /\
    spawn_identities (w_trace (snd run))
      = (spawn_identities (w_trace w)
         ++ map identity_of (take n clientStrategies))%list /\
    match fst run with
    | Normal _ =>
        uploads_done (w_trace (snd run)) = (uploads_done (w_trace w) ++ [key])%list /\
        (exists client,
           clientStrategies !! (n - 1)%nat = Some client /\
           attributed (w_trace (snd run))
           = (attributed (w_trace w) ++ [(key, client)])%list) /\
        is_Some (w_bucket (snd run) !! key)
    | Thrown _ =>
        n = 4%nat /\
        uploads_done (w_trace (snd run)) = uploads_done (w_trace w) /\
        attributed (w_trace (snd run)) = attributed (w_trace w) /\
        w_bucket (snd run) = w_bucket w
    end.
Proof. apply fetch_outcome. Qed.

End Fetch.

(** ** The handler *)

Lemma rows_stay_refl w : rows_stay w w.
Proof. intros id row H. exact H. Qed.

Lemma rows_stay_trans a b c : rows_stay a b -> rows_stay b c -> rows_stay a c.
Proof. intros H1 H2 id row H. apply H2, H1, H. Qed.

Lemma rows_ret {A} (a : A) : kept rows_stay (ret a).
Proof. intros w. apply rows_stay_refl. Qed.

Lemma rows_throw {A} e : kept rows_stay (@throw A e).
Proof. intros w. apply rows_stay_refl. Qed.

Lemma rows_bind {A B} (m : M A) (k : A -> M B) :
  kept rows_stay m -> (forall a, kept rows_stay (k a)) -> kept rows_stay (bind m k).
Proof.
  intros Hm Hk w. unfold bind. specialize (Hm w).
  destruct (m w) as [[a|e] w1]; simpl in *; [|assumption].
  eapply rows_stay_trans; [exact Hm|apply Hk].
Qed.

Lemma rows_try_catch {A} (m : M A) h :
  kept rows_stay m -> (forall e, kept rows_stay (h e)) ->
  kept rows_stay (try_catch m h).
Proof.
  intros Hm Hh w. unfold try_catch. specialize (Hm w).
  destruct (m w) as [[a|e] w1]; simpl in *; [assumption|].
  eapply rows_stay_trans; [exact Hm|apply Hh].
Qed.

Lemma rows_unchanged {A} (m : M A) : unchanged w_table m -> kept rows_stay m.
Proof. intros H w id row Hrow. rewrite H. exact Hrow. Qed.

Section Handler.

Variable cfg : Config.
Variable env : Env.

Lemma rows_ddb_request : kept rows_stay (ddb_request env).
Proof.
  intros w id row Hrow. rewrite ddb_request_run.
  destruct (env_ddb_fault env (w_tick w)); cbn; [assumption|].
  apply lookup_union_Some_l. assumption.
Qed.

Lemma rows_GetCommand videoId : kept rows_stay (GetCommand cfg env videoId).
Proof.
  unfold GetCommand.
  apply rows_bind; [apply rows_unchanged; frame|intros _].
  apply rows_bind; [apply rows_ddb_request|intros _].
  destruct videoId; first [apply rows_throw | apply rows_unchanged; frame].
Qed.

Lemma rows_PutCommand item : kept rows_stay (PutCommand_if_absent cfg env item).
Proof.
  intros w id row Hrow. rewrite PutCommand_run.
  destruct (env_ddb_fault env (w_tick w)); cbn; [assumption|].
  assert (table_seen env w !! id = Some row) as Hseen
    by (apply lookup_union_Some_l; assumption).
  destruct (table_seen env w !! it_videoId item) eqn:Htaken; cbn; [assumption|].
  rewrite lookup_insert_ne; [assumption|].
  intros Heq. rewrite Heq in Htaken. congruence.
Qed.

Lemma rows_recordMetric name value unit_ :
  kept rows_stay (recordMetric env name value unit_).
Proof. apply rows_unchanged. unfold recordMetric. frame. Qed.

Lemma rows_log name data : kept rows_stay (log env name data).
Proof. apply rows_unchanged. unfold log, Date_now. frame. Qed.

Lemma rows_onError record videoId err :
  kept rows_stay (onError env record videoId err).
Proof.
  unfold onError.
  apply rows_bind; [apply rows_recordMetric|intros _].
  apply rows_bind; [apply rows_log|intros _]. apply rows_ret.
Qed.

Lemma rows_processVideo videoId title :
  kept rows_stay (processVideo cfg env videoId title).
Proof.
  unfold processVideo.
  apply rows_bind; [apply rows_GetCommand|intros existing].
  destruct existing.
  { apply rows_bind; [apply rows_unchanged; unfold console; frame|intros _].
    apply rows_ret. }
  apply rows_bind; [apply rows_unchanged; unfold Date_now; frame|intros start].
  apply rows_bind;
    [apply rows_unchanged; unfold safeTitleOf; destruct title; frame|intros safeTitle].
  apply rows_bind; [apply rows_unchanged, downloadToS3_table|intros _].
  apply rows_bind; [apply rows_unchanged; unfold Date_now; frame|intros downloadedAt].
  apply rows_bind; [apply rows_PutCommand|intros _].
  apply rows_bind; [apply rows_unchanged; unfold Date_now; frame|intros finish].
  apply rows_bind; [apply rows_recordMetric|intros _].
  apply rows_bind; [apply rows_recordMetric|intros _].
  apply rows_bind; [apply rows_log|intros _].
  apply rows_ret.
Qed.

Lemma rows_processRecord record : kept rows_stay (processRecord cfg env record).
Proof.
  unfold processRecord.
  destruct (body_json record) as [parsed|]; [|apply rows_onError].
  destruct (negb (truthy parsed) || negb (truthy (get_prop parsed "videoId"))).
  - apply rows_bind; [apply rows_log|intros _]. apply rows_ret.
  - apply rows_try_catch; [apply rows_processVideo|intros e; apply rows_onError].
Qed.

Lemma rows_handler_from records : kept rows_stay (handler_from cfg env records).
Proof.
  induction records as [|record rest IH]; simpl; [apply rows_ret|].
  apply rows_bind; [apply rows_processRecord|intros []]; [exact IH|apply rows_ret].
Qed.

(** X8.  The handler never overwrites or removes a completion record: a row
    that is in the table before a batch is the same row after it, whatever
    the batch contains and whatever the outside answers. *)
Theorem rows_are_never_overwritten (event : list SQSRecord) (w : World)
    (id : string) (row : Item) :
  w_table w !! id = Some row ->
  w_table (snd (handler cfg env event w)) !! id = Some row.
Proof.
  revert id row. change (rows_stay w (snd (handler cfg env event w))).
  revert w. change (kept rows_stay (handler cfg env event)).
  unfold handler.
  apply rows_bind; [apply rows_log|intros _].
  apply rows_bind; [apply rows_handler_from|intros []];
    [apply rows_log|apply rows_ret].
Qed.

Lemma onError_normal record videoId err w :
  (forall k, env_metric env k = None) ->
  fst (onError env record videoId err w) = Normal Continue.
Proof. intros H. rewrite onError_run by apply H. reflexivity. Qed.

Lemma processRecord_normal record w :
  (forall k, env_metric env k = None) ->
  exists flow, fst (processRecord cfg env record w) = Normal flow.
Proof.
  intros H. unfold processRecord.
  destruct (body_json record) as [parsed|].
  2:{ exists Continue. apply onError_normal, H. }
  destruct (negb (truthy parsed) || negb (truthy (get_prop parsed "videoId"))).
  { exists Return. reflexivity. }
  unfold try_catch.
  destruct (processVideo cfg env _ _ w) as [[flow|e] w1].
  - exists flow. reflexivity.
  - exists Continue. apply onError_normal, H.
Qed.

Lemma handler_from_normal records w :
  (forall k, env_metric env k = None) ->
  exists flow, fst (handler_from cfg env records w) = Normal flow.
Proof.
  intros H. revert w. induction records as [|record rest IH]; intros w; simpl.
  { exists Continue. reflexivity. }
  unfold bind. destruct (processRecord_normal record w H) as [flow Hflow].
  destruct (processRecord cfg env record w) as [r w1]. simpl in Hflow. subst r.
  destruct flow; [apply IH|exists Return; reflexivity].
Qed.

(** X9.  As long as CloudWatch accepts the metrics, the handler returns
    normally for every batch: no parse error, table fault, failed fetch or
    refused insert of any message escapes it. *)
Theorem handler_never_raises (event : list SQSRecord) (w : World) :
  (forall k, env_metric env k = None) ->
  fst (handler cfg env event w) = Normal tt.
Proof.
  intros H. unfold handler. unfold bind at 1. rewrite log_run.
  unfold bind.
  match goal with |- context [handler_from cfg env event ?w1] =>
    destruct (handler_from_normal event w1 H) as [flow Hflow];
    destruct (handler_from cfg env event w1) as [r w2]
  end.
  simpl in Hflow. subst r. destruct flow; reflexivity.
Qed.

(** X10.  The one way out: when a message's body is not JSON and CloudWatch
    rejects the [DownloadFailures] datum sent by the [catch] block, the
    rejection leaves the handler; nothing is logged for the message and the
    messages behind it are not processed. *)
Theorem rejected_metric_aborts_batch (record : SQSRecord) (rest : list SQSRecord)
    (w : World) (e : JSError) :
  body_json record = None ->
  env_metric env (S (w_tick w)) = Some e ->
  handler cfg env (record :: rest) w
  = (Thrown e,
     mkWorld (S (S (w_tick w))) (w_fs w) (w_bucket w) (w_table w)
       (w_trace w
        ++ [EvLog "BatchStart" (env_now env (w_tick w))
              [("recordCount",
                JNum (inject_Z (Z.of_nat (length (record :: rest)))))]])%list).
Proof.
  intros Hbody Hmetric. unfold handler. unfold bind at 1. rewrite log_run.
  unfold bind at 1. cbn [handler_from]. unfold bind at 1.
  unfold processRecord. rewrite Hbody. unfold onError. unfold bind at 1.
  rewrite recordMetric_run. cbn [w_tick]. rewrite Hmetric. reflexivity.
Qed.


(** X12.  The whole pipeline for one message: when the lookup finds no row,
    the fetch returns, the table accepts the insert and CloudWatch the two
    metrics, the row for the id holds the message's title, the destination
    key, the bucket and the commit time; [VideosDownloaded] and
    [DownloadDuration] are sent and [DownloadSuccess] is logged; and a
    lookup of the id right after finds that row. *)
Theorem download_success_records (record : SQSRecord) (parsed : JSValue)
    (id title : string) (w w1 w3 : World) :
  body_json record = Some parsed ->
  get_prop parsed "videoId" = JStr id ->
  id <> "" ->
  get_prop parsed "title" = JStr title ->
  GetCommand cfg env (JStr id) w = (Normal None, w1) ->
  downloadToS3 cfg env (watchUrl id) (s3KeyOf (sanitize title) id)
    (set_tick (S (w_tick w1)) w1) = (Normal tt, w3) ->
  env_ddb_fault env (S (w_tick w3)) = None ->
  (w_table w3 ∪ env_ddb_others env (S (w_tick w3))) !! id = None ->
  env_metric env (S (S (S (w_tick w3)))) = None ->
  env_metric env (S (S (S (S (w_tick w3))))) = None ->
  env_ddb_fault env (S (S (S (S (S (S (w_tick w3))))))) = None ->
  let item :=
    mkItem id title (s3KeyOf (sanitize title) id) (BUCKET_NAME cfg)
           (env_now env (w_tick w3)) in
  let w' := snd (processRecord cfg env record w) in
  fst (processRecord cfg env record w) = Normal Continue /\
  w_table w' !! id = Some item /\
  metrics_sent (w_trace w')
    = (metrics_sent (w_trace w) ++ ["VideosDownloaded"; "DownloadDuration"])%list /\
  logged (w_trace w') = (logged (w_trace w) ++ ["DownloadSuccess"])%list /\
  puts (w_trace w') = (puts (w_trace w) ++ [item])%list /\
  fst (GetCommand cfg env (JStr id) w') = Normal (Some item).
Proof.
  intros Hbody Hid Hne Htitle Hget Hfetch Hfault Hrow Hm1 Hm2 Hfault2 item w'.
  pose proof (eq_refl w') as Hw'. unfold w' at 2 in Hw'. clearbody w'.
  pose proof (eq_refl (fst (processRecord cfg env record w))) as Hres.
  revert Hres. generalize (fst (processRecord cfg env record w)) at 1 3.
  intros res Hres.
  rewrite (processRecord_valid cfg env _ _ _ _ Hbody Hid Hne), Htitle in Hw', Hres.
  unfold try_catch in Hw', Hres.
  rewrite (processVideo_fetch _ _ _ _ _ _ Hget) in Hw', Hres.
  cbv zeta in Hw', Hres. unfold bind at 1 in Hw'. unfold bind at 1 in Hres.
  rewrite Hfetch in Hw', Hres.
  unfold bind at 1, Date_now at 1, ask in Hw'. unfold bind at 1 in Hw'.
  unfold bind at 1, Date_now at 1, ask in Hres. unfold bind at 1 in Hres.
  rewrite PutCommand_run in Hw', Hres. unfold table_seen in Hw', Hres.
  cbn [w_tick w_fs w_bucket w_table w_trace set_tick it_videoId] in Hw', Hres.
  rewrite Hfault, Hrow in Hw', Hres.
  unfold Date_now, recordMetric, log, Date_now in Hw', Hres.
  exec in Hw'. exec in Hres.
  rewrite Hm1 in Hw', Hres. exec in Hw'. exec in Hres.
  rewrite Hm2 in Hw', Hres. exec in Hw'. exec in Hres.
  destruct (GetCommand_absent _ _ _ _ _ Hget) as [_ Hw1].
  pose proof (downloadToS3_quiet cfg env see_metric (watchUrl id)
                (s3KeyOf (sanitize title) id) see_metric_blind
                (set_tick (S (w_tick w1)) w1)) as Hm.
  pose proof (downloadToS3_quiet cfg env see_log (watchUrl id)
                (s3KeyOf (sanitize title) id) see_log_blind
                (set_tick (S (w_tick w1)) w1)) as Hl.
  pose proof (downloadToS3_quiet cfg env see_put (watchUrl id)
                (s3KeyOf (sanitize title) id) see_put_blind
                (set_tick (S (w_tick w1)) w1)) as Hp.
  rewrite Hfetch in Hm, Hl, Hp. cbn [snd set_tick w_trace] in Hm, Hl, Hp.
  subst res. split; [reflexivity|].
  subst w'.
  cbn [snd w_tick w_fs w_bucket w_table w_trace
       set_tick set_fs set_bucket set_table set_trace].
  split; [apply lookup_insert_eq|].
  unfold metrics_sent, logged, puts.
  split; [|split; [|split]].
  - rewrite !omap_app, Hm, Hw1. cbn [w_trace]. rewrite omap_app. cbn.
    rewrite !app_nil_r, <- app_assoc. reflexivity.
  - rewrite !omap_app, Hl, Hw1. cbn [w_trace]. rewrite omap_app. cbn.
    rewrite !app_nil_r. reflexivity.
  - rewrite !omap_app, Hp, Hw1. cbn [w_trace]. rewrite omap_app. cbn.
    rewrite !app_nil_r. reflexivity.
  - rewrite GetCommand_run. cbn [w_tick set_trace set_tick]. rewrite Hfault2. cbn [fst].
    unfold table_seen.
    cbn [w_tick w_table set_tick set_table set_trace set_fs set_bucket].
    f_equal. apply lookup_union_Some_l, lookup_insert_eq.
Qed.

End Handler.

(** ** One message's turn *)

Lemma bind_tail_unchanged {X A B} (f : World -> X) (m : M A) (k : A -> M B) w :
  (forall a, unchanged f (k a)) ->
  f (snd (bind m k w)) = f (snd (m w)).
Proof.
  intros H. unfold bind. destruct (m w) as [[a|e] w1]; cbn [snd]; [apply H|reflexivity].
Qed.

Lemma try_catch_handler_unchanged {X A} (f : World -> X) (m : M A) h w :
  (forall e, unchanged f (h e)) ->
  f (snd (try_catch m h w)) = f (snd (m w)).
Proof.
  intros H. unfold try_catch. destruct (m w) as [[a|e] w1]; cbn [snd];
    [reflexivity|apply H].
Qed.

Section Turn.

Variable cfg : Config.
Variable env : Env.

Lemma turn_bounded_same w w' :
  spawn_identities (w_trace w') = spawn_identities (w_trace w) ->
  uploads_done (w_trace w') = uploads_done (w_trace w) ->
  puts (w_trace w') = puts (w_trace w) ->
  turn_bounded cfg w w'.
Proof.
  intros Hs Hu Hp. exists [], []. rewrite !app_nil_r.
  repeat split; try assumption; simpl; try lia. left. split; [assumption|simpl; lia].
Qed.

(** The handler's own steps, other than the fetch and the insert, feed none
    of the observations of a turn. *)
Ltac own_step :=
  unfold onError, recordMetric, log, console, Date_now, GetCommand, ddb_request,
    safeTitleOf;
  frame.

Lemma onError_spawn record v e :
  unchanged (fun w => omap see_spawn (w_trace w)) (onError env record v e).
Proof. own_step. Qed.
Lemma onError_done record v e :
  unchanged (fun w => omap see_upload_done (w_trace w)) (onError env record v e).
Proof. own_step. Qed.
Lemma onError_put record v e :
  unchanged (fun w => omap see_put (w_trace w)) (onError env record v e).
Proof. own_step. Qed.
Lemma onError_bucket record v e : unchanged w_bucket (onError env record v e).
Proof. own_step. Qed.

Lemma GetCommand_spawn v :
  unchanged (fun w => omap see_spawn (w_trace w)) (GetCommand cfg env v).
Proof. own_step. Qed.
Lemma GetCommand_done v :
  unchanged (fun w => omap see_upload_done (w_trace w)) (GetCommand cfg env v).
Proof. own_step. Qed.
Lemma GetCommand_put v :
  unchanged (fun w => omap see_put (w_trace w)) (GetCommand cfg env v).
Proof. own_step. Qed.

(** The commit block of [processVideo]: the insert and what follows it. *)
Lemma commit_observed (item : Z -> Item) (rest : M Flow) w :
  (unchanged (fun w => omap see_spawn (w_trace w)) rest) ->
  (unchanged (fun w => omap see_upload_done (w_trace w)) rest) ->
  (unchanged (fun w => omap see_put (w_trace w)) rest) ->
  (unchanged w_bucket rest) ->
  let w' :=
    snd ((let* downloadedAt := Date_now env in
          PutCommand_if_absent cfg env (item downloadedAt) ;; rest) w) in
  spawn_identities (w_trace w') = spawn_identities (w_trace w) /\
  uploads_done (w_trace w') = uploads_done (w_trace w) /\
  puts (w_trace w') = (puts (w_trace w) ++ [item (env_now env (w_tick w))])%list /\
  w_bucket w' = w_bucket w.
Proof.
  intros Hs Hu Hp Hb w'.
  assert (w' = snd ((PutCommand_if_absent cfg env (item (env_now env (w_tick w))) ;; rest)
                      (set_tick (S (w_tick w)) w))) as -> by reflexivity.
  unfold spawn_identities, uploads_done, puts.
  rewrite (bind_tail_unchanged (fun w => omap see_spawn (w_trace w))) by (intros; exact Hs).
  rewrite (bind_tail_unchanged (fun w => omap see_upload_done (w_trace w)))
    by (intros; exact Hu).
  rewrite (bind_tail_unchanged (fun w => omap see_put (w_trace w))) by (intros; exact Hp).
  rewrite (bind_tail_unchanged w_bucket) by (intros; exact Hb).
  rewrite PutCommand_run. cbn [w_tick set_tick w_trace w_fs w_bucket w_table].
  destruct (env_ddb_fault env (S (w_tick w)));
    [|destruct (table_seen env _ !! _)];
    cbn [snd w_trace w_bucket]; rewrite !omap_app; cbn; rewrite !app_nil_r; auto.
Qed.

Lemma processVideo_bounded v title w :
  turn_bounded cfg w (snd (processVideo cfg env v title w)).
Proof.
  pose proof (GetCommand_spawn v w) as Gs.
  pose proof (GetCommand_done v w) as Gu.
  pose proof (GetCommand_put v w) as Gp.
  cbn beta in Gs, Gu, Gp.
  destruct (GetCommand cfg env v w) as [[existing|e] w1] eqn:Hget; cbn [snd] in *.
  2:{ unfold processVideo, bind. rewrite Hget. cbn [snd].
      apply turn_bounded_same; assumption. }
  destruct (GetCommand_string cfg env _ _ _ _ Hget) as [id ->].
  destruct existing as [row|].
  { unfold processVideo. unfold bind at 1. rewrite Hget.
    unfold console. exec.
    apply turn_bounded_same; unfold spawn_identities, uploads_done, puts;
      cbn [w_trace set_trace]; rewrite omap_app; cbn; rewrite app_nil_r; assumption. }
  destruct title as [| |b|n|t|items|fields];
    try (unfold processVideo; unfold bind at 1; rewrite Hget;
         unfold Date_now, safeTitleOf; exec;
         apply turn_bounded_same; assumption).
  rewrite (processVideo_fetch cfg env _ _ _ _ Hget). cbv zeta.
  set (key := s3KeyOf (sanitize t) id).
  set (w2 := set_tick (S (w_tick w1)) w1).
  assert (spawn_identities (w_trace w2) = spawn_identities (w_trace w)) as Hs2
    by exact Gs.
  assert (uploads_done (w_trace w2) = uploads_done (w_trace w)) as Hu2 by exact Gu.
  assert (puts (w_trace w2) = puts (w_trace w)) as Hp2 by exact Gp.
  destruct (fetch_outcome cfg env (watchUrl id) key w2) as (n & Hn & Hids & Hend).
  pose proof (downloadToS3_quiet cfg env see_put (watchUrl id) key see_put_blind w2)
    as Hputs. cbn beta in Hputs.
  unfold bind at 1.
  destruct (downloadToS3 cfg env (watchUrl id) key w2) as [[[]|e] w3] eqn:Hfetch;
    cbn [fst snd] in *.
  - destruct Hend as (Hdone & _ & Hbucket).
    match goal with
    | |- turn_bounded cfg _ (snd ((let* d := Date_now env in
                               PutCommand_if_absent cfg env (@?item d) ;; ?rest) w3)) =>
        destruct (commit_observed item rest w3) as (Cs & Cu & Cp & Cb)
    end.
    1-4: own_step.
    cbn beta in Cp.
    exists (map identity_of (take n clientStrategies)), [key].
    split; [rewrite Cs, Hids, Hs2; reflexivity|].
    split; [rewrite length_map, length_take; unfold clientStrategies; simpl; lia|].
    split; [rewrite Cu, Hdone, Hu2; reflexivity|].
    right. eexists. split; [rewrite Cp; fold (puts (w_trace w2)) in Hputs;
                             unfold puts in *; rewrite Hputs, Hp2; reflexivity|].
    cbn [it_s3Key it_s3Bucket]. repeat split. rewrite Cb. exact Hbucket.
  - destruct Hend as (_ & Hdone & _ & _).
    exists (map identity_of (take n clientStrategies)), [].
    split; [rewrite Hids, Hs2; reflexivity|].
    split; [rewrite length_map, length_take; unfold clientStrategies; simpl; lia|].
    split; [rewrite Hdone, Hu2, app_nil_r; reflexivity|].
    left. split; [|simpl; lia]. unfold puts in *. rewrite Hputs. exact Hp2.
Qed.

Lemma processRecord_bounded record w :
  turn_bounded cfg w (snd (processRecord cfg env record w)).
Proof.
  unfold processRecord.
  destruct (body_json record) as [parsed|].
  2:{ apply turn_bounded_same; [apply onError_spawn|apply onError_done|apply onError_put]. }
  destruct (negb (truthy parsed) || negb (truthy (get_prop parsed "videoId"))).
  { unfold log, Date_now. exec.
    apply turn_bounded_same; unfold spawn_identities, uploads_done, puts;
      cbn [w_trace set_trace set_tick]; rewrite omap_app; cbn; apply app_nil_r. }
  destruct (processVideo_bounded (get_prop parsed "videoId") (get_prop parsed "title") w)
    as (ids & dones & Hs & Hlen & Hu & Hp).
  exists ids, dones.
  unfold spawn_identities, uploads_done, puts in *.
  rewrite (try_catch_handler_unchanged (fun w => omap see_spawn (w_trace w)))
    by (intros; apply onError_spawn).
  rewrite (try_catch_handler_unchanged (fun w => omap see_upload_done (w_trace w)))
    by (intros; apply onError_done).
  rewrite (try_catch_handler_unchanged (fun w => omap see_put (w_trace w)))
    by (intros; apply onError_put).
  rewrite (try_catch_handler_unchanged w_bucket) by (intros; apply onError_bucket).
  auto.
Qed.

(** X13.  Commit follows upload: in the turn of any message, the handler
    asks the table for an insert at most once, and only for an item whose
    destination key has had its upload completed in that same turn and is
    in the bucket; no message makes it spawn more than four children. *)
Theorem commit_follows_upload (record : SQSRecord) (w : World) :
  let w' := snd (processRecord cfg env record w) in
  exists ids dones,
    spawn_identities (w_trace w') = (spawn_identities (w_trace w) ++ ids)%list /\
    (length ids <= 4)%nat /\
    uploads_done (w_trace w') = (uploads_done (w_trace w) ++ dones)%list /\
    ((puts (w_trace w') = puts (w_trace w) /\ (length dones <= 1)%nat) \/
     (exists item,
        puts (w_trace w') = (puts (w_trace w) ++ [item])%list /\
        dones = [it_s3Key item] /\
        it_s3Bucket item = BUCKET_NAME cfg /\
        is_Some (w_bucket w' !! it_s3Key item))).
Proof. apply processRecord_bounded. Qed.

Lemma turn_within w w' : turn_bounded cfg w w' -> within 4 1 1 w w'.
Proof.
  intros (ids & dones & Hs & Hlen & Hu & Hp). unfold within.
  rewrite Hs, Hu, !length_app.
  destruct Hp as [[Hp Hd]|(item & Hp & -> & _)]; rewrite Hp, ?length_app; simpl; lia.
Qed.

Lemma within_trans a b c a' b' c' w1 w2 w3 :
  within a b c w1 w2 -> within a' b' c' w2 w3 ->
  within (a + a') (b + b') (c + c') w1 w3.
Proof. unfold within. intros (? & ? & ?) (? & ? & ?). lia. Qed.

Lemma handler_from_within records w :
  within (4 * length records) (length records) (length records)
         w (snd (handler_from cfg env records w)).
Proof.
  revert w. induction records as [|record rest IH]; intros w.
  { unfold within. simpl. lia. }
  cbn [handler_from]. unfold bind.
  pose proof (turn_within _ _ (processRecord_bounded record w)) as Hturn.
  destruct (processRecord cfg env record w) as [[[]|e] w1]; cbn [snd] in *.
  - pose proof (within_trans _ _ _ _ _ _ _ _ _ Hturn (IH w1)) as H.
    unfold within in *. simpl length. lia.
  - unfold within in *. simpl length. lia.
  - unfold within in *. simpl length. lia.
Qed.

Lemma handler_unfold event w :
  handler cfg env event w
  = (let* flow := handler_from cfg env event in
     match flow with
     | Return => ret tt
     | Continue => log env "BatchComplete" []
     end)
      (snd (log env "BatchStart"
              [("recordCount", JNum (inject_Z (Z.of_nat (length event))))] w)).
Proof. unfold handler. unfold bind at 1. rewrite log_run. reflexivity. Qed.

(** X14.  A batch of [n] messages makes the handler spawn at most [4 n]
    children, complete at most [n] uploads and ask for at most [n]
    inserts. *)
Theorem batch_is_bounded (event : list SQSRecord) (w : World) :
  let w' := snd (handler cfg env event w) in
  (length (spawn_identities (w_trace w'))
     <= length (spawn_identities (w_trace w)) + 4 * length event)%nat /\
  (length (uploads_done (w_trace w'))
     <= length (uploads_done (w_trace w)) + length event)%nat /\
  (length (puts (w_trace w')) <= length (puts (w_trace w)) + length event)%nat.
Proof.
  intros w'. subst w'. rewrite handler_unfold.
  set (w1 := snd (log env "BatchStart" _ w)).
  match goal with
  | |- context [bind (handler_from cfg env event) ?k] => set (finish := k)
  end.
  pose proof (handler_from_within event w1) as H.
  assert (forall (X : Type) (obs : Event -> option X),
            (forall n t d, obs (EvLog n t d) = None) ->
            omap obs (w_trace (snd (bind (handler_from cfg env event) finish w1)))
            = omap obs (w_trace (snd (handler_from cfg env event w1)))) as Hs.
  { intros X obs Hobs. unfold bind.
    destruct (handler_from cfg env event w1) as [[[]|e] w2]; cbn [snd];
      try reflexivity.
    unfold finish. rewrite log_run. cbn [snd w_trace]. rewrite omap_app. cbn.
    rewrite Hobs. apply app_nil_r. }
  unfold within, spawn_identities, uploads_done, puts in *.
  rewrite (Hs _ see_spawn (fun _ _ _ => eq_refl)),
          (Hs _ see_upload_done (fun _ _ _ => eq_refl)),
          (Hs _ see_put (fun _ _ _ => eq_refl)).
  subst w1. rewrite log_run in H. cbn [snd w_trace] in H.
  rewrite !omap_app in H. cbn in H. rewrite !app_nil_r in H.
  exact H.
Qed.

End Turn.

(** ** The sanitized title, once more *)

Lemma replace_unsafe_length s :
  String.length (replace_unsafe s) = String.length s.
Proof. induction s; simpl; congruence. Qed.

Lemma replace_unsafe_twice s : replace_unsafe (replace_unsafe s) = replace_unsafe s.
Proof.
  induction s as [|c s IH]; simpl; [reflexivity|]. rewrite IH. f_equal.
  destruct (safe_char c) eqn:E; [rewrite E; reflexivity|reflexivity].
Qed.

Lemma replace_unsafe_substring n s :
  replace_unsafe (String.substring 0 n s) = String.substring 0 n (replace_unsafe s).
Proof.
  revert s; induction n as [|n IH]; intros [|c s]; simpl; try reflexivity.
  rewrite IH. reflexivity.
Qed.

Lemma substring_0_twice n s :
  String.substring 0 n (String.substring 0 n s) = String.substring 0 n s.
Proof.
  revert s; induction n as [|n IH]; intros [|c s]; simpl; try reflexivity.
  rewrite IH. reflexivity.
Qed.

Lemma substring_0_all n s :
  (String.length s <= n)%nat -> String.substring 0 n s = s.
Proof.
  revert s; induction n as [|n IH]; intros [|c s] H; simpl in *; try reflexivity;
    try lia.
  rewrite IH by lia. reflexivity.
Qed.

Lemma replace_unsafe_id s :
  Forall (fun c => safe_char c = true) (String.list_ascii_of_string s) ->
  replace_unsafe s = s.
Proof.
  induction s as [|c s IH]; simpl; intros H; [reflexivity|].
  inversion H; subst. rewrite IH by assumption.
  match goal with H : safe_char c = true |- _ => rewrite H end. reflexivity.
Qed.

(** X15.  The sanitized title is as long as the title, cut at 100
    characters; sanitizing is idempotent; and a title of at most 100
    characters that are all letters, digits, spaces or hyphens is left as it
    is. *)
Theorem sanitize_shape (title : string) :
  String.length (sanitize title) = Nat.min 100 (String.length title) /\
  sanitize (sanitize title) = sanitize title /\
  ((String.length title <= 100)%nat ->
   Forall (fun c => safe_char c = true) (String.list_ascii_of_string title) ->
   sanitize title = title).
Proof.
  unfold sanitize. repeat split.
  - rewrite substring_0_length, replace_unsafe_length. reflexivity.
  - rewrite replace_unsafe_substring, replace_unsafe_twice. apply substring_0_twice.
  - intros Hlen Hsafe. rewrite (replace_unsafe_id _ Hsafe).
    apply substring_0_all. exact Hlen.
Qed.

(** ** The further properties on the sample inputs *)

Section ClosedMore.

Import Sample.
Import More.

Lemma failed_refresh_keeps_stale_cookie_witness :
  let w' := snd (ensureCookieFileIfConfigured cfg env_broken cached_stale) in
  w_fs w' !! COOKIE_LOCAL_PATH = Some (mkFile 2048 (clock 0 - 169 * hour) 384) /\
  w_fs w' !! COOKIE_TMP_PATH = None /\
  s3_reads (w_trace w')
    = (s3_reads (w_trace cached_stale) ++ [(BUCKET_NAME cfg, COOKIE_S3_KEY cfg)])%list /\
  arg_after "--cookies" (attempt_args cfg env_broken video_url "ios" cached_stale)
    = Some COOKIE_LOCAL_PATH.
Proof.
  apply (failed_refresh_keeps_stale_cookie cfg env_broken cached_stale
           (mkFile 2048 (clock 0 - 169 * hour) 384) video_url "ios").
  - discriminate.
  - discriminate.
  - reflexivity.
  - vm_compute. reflexivity.
  - reflexivity.
Defined.

Lemma refreshed_cookie_is_reused_witness :
  let w1 := snd (ensureCookieFileIfConfigured cfg env_cookie fresh_world) in
  let w2 := snd (ensureCookieFileIfConfigured cfg env_cookie w1) in
  w_fs w1 !! COOKIE_LOCAL_PATH = Some (mkFile 2048 1700000000000 384) /\
  w_fs w1 !! COOKIE_TMP_PATH = None /\
  w_fs w2 = w_fs w1 /\
  s3_reads (w_trace w2)
    = (s3_reads (w_trace fresh_world) ++ [(BUCKET_NAME cfg, COOKIE_S3_KEY cfg)])%list.
Proof.
  apply (refreshed_cookie_is_reused cfg env_cookie fresh_world 168 2048 1700000000000).
  - discriminate.
  - discriminate.
  - reflexivity.
  - reflexivity.
  - reflexivity.
  - vm_compute. reflexivity.
Defined.

Lemma no_cache_or_nan_reads_once_witness :
  s3_reads (w_trace (snd (ensureCookieFileIfConfigured cfg_nan env_cookie cached_fresh)))
  = (s3_reads (w_trace cached_fresh)
     ++ [(BUCKET_NAME cfg_nan, COOKIE_S3_KEY cfg_nan)])%list.
Proof.
  apply (no_cache_or_nan_reads_once cfg_nan env_cookie cached_fresh).
  - discriminate.
  - discriminate.
  - right. reflexivity.
Defined.

Lemma rows_are_never_overwritten_witness :
  w_table (snd (handler cfg env_ok [video_msg; no_title_msg] (snd first_run)))
    !! video_id
  = Some (mkItem video_id "Never Gonna: Give/You Up!" video_key "videos-bucket"
                 (clock 7)).
Proof.
  apply (rows_are_never_overwritten cfg env_ok [video_msg; no_title_msg]
           (snd first_run) video_id).
  vm_compute. reflexivity.
Defined.

Lemma handler_never_raises_witness :
  fst (handler cfg env_blocked [garbled_msg; no_title_msg; video_msg] fresh_world)
  = Normal tt.
Proof.
  apply (handler_never_raises cfg env_blocked). intros k. reflexivity.
Defined.

Lemma rejected_metric_aborts_batch_witness :
  handler cfg env_no_metrics (garbled_msg :: [video_msg]) fresh_world
  = (Thrown (Error "Throttling"),
     mkWorld (S (S (w_tick fresh_world))) (w_fs fresh_world) (w_bucket fresh_world)
       (w_table fresh_world)
       (w_trace fresh_world
        ++ [EvLog "BatchStart" (env_now env_no_metrics (w_tick fresh_world))
              [("recordCount",
                JNum (inject_Z (Z.of_nat (length (garbled_msg :: [video_msg])))))]])%list).
Proof.
  apply (rejected_metric_aborts_batch cfg env_no_metrics garbled_msg [video_msg]
           fresh_world (Error "Throttling")).
  - reflexivity.
  - reflexivity.
Defined.


Lemma download_success_records_witness :
  let item :=
    mkItem video_id "Never Gonna: Give/You Up!"
           (s3KeyOf (sanitize "Never Gonna: Give/You Up!") video_id)
           (BUCKET_NAME cfg) (env_now env_ok (w_tick ok_fetched)) in
  let w' := snd (processRecord cfg env_ok video_msg fresh_world) in
  fst (processRecord cfg env_ok video_msg fresh_world) = Normal Continue /\
  w_table w' !! video_id = Some item /\
  metrics_sent (w_trace w')
    = (metrics_sent (w_trace fresh_world)
       ++ ["VideosDownloaded"; "DownloadDuration"])%list /\
  logged (w_trace w') = (logged (w_trace fresh_world) ++ ["DownloadSuccess"])%list /\
  puts (w_trace w') = (puts (w_trace fresh_world) ++ [item])%list /\
  fst (GetCommand cfg env_ok (JStr video_id) w') = Normal (Some item).
Proof.
  apply (download_success_records cfg env_ok video_msg video_json video_id
           "Never Gonna: Give/You Up!" fresh_world ok_checked ok_fetched).
  - reflexivity.
  - reflexivity.
  - discriminate.
  - reflexivity.
  - vm_compute. reflexivity.
  - vm_compute. reflexivity.
  - reflexivity.
  - vm_compute. reflexivity.
  - reflexivity.
  - reflexivity.
  - reflexivity.
Defined.

End ClosedMore.
